(** * On-toolhead memory: header codec and lifecycle controller

    A shallow embedding of [klippy/extras/cocoa_toolhead/memory.py]: the
    32-byte [Header] codec, the [CocoaMemory] attach / save controller and
    its key-value accessors, with the properties the specification states
    about them. *)

From Stdlib Require Import ZArith Lia Ascii String.
From stdpp Require Import base list strings gmap.

Local Open Scope Z_scope.

(** ** Python values and exceptions *)

(** A Python [bytes] object: a sequence of integers, each in [0, 256). *)
Abbreviation bytes := (list Z).

Definition is_byte (b : Z) : Prop := 0 <= b < 256.
Definition is_bytes (v : bytes) : Prop := Forall is_byte v.

(** The exceptions the code raises or lets escape. *)
Inductive exn : Type :=
| InvalidMagic | InvalidVersion | InvalidChecksum   (* HeaderError *)
| MemoryNotConnected                               (* MemoryError *)
| CommandError            (* a device failure reported by the Memory object *)
| KeyError
| IndexError | ValueError | AttributeError | TypeError
| StructError             (* struct.error *)
| CodecError.             (* raised by the msgpack payload codec *)

#[global] Instance exn_eq_dec : EqDecision exn.
Proof. solve_decision. Defined.

(** [HeaderError] and its three subclasses. *)
Definition is_HeaderError (e : exn) : bool :=
  match e with
  | InvalidMagic | InvalidVersion | InvalidChecksum => true
  | _ => false
  end.

(** [CommandError] and its subclasses ([HeaderError], [MemoryError]). *)
Definition is_CommandError (e : exn) : bool :=
  match e with
  | CommandError | InvalidMagic | InvalidVersion | InvalidChecksum
  | MemoryNotConnected => true
  | _ => false
  end.

Inductive result (A : Type) : Type :=
| Ok (a : A)
| Raise (e : exn).
Arguments Ok {A} a.
Arguments Raise {A} e.

Definition rbind {A B} (r : result A) (f : A -> result B) : result B :=
  match r with
  | Ok a => f a
  | Raise e => Raise e
  end.

Declare Scope result_scope.
Delimit Scope result_scope with res.
Notation "'let*' x := r 'in' k" := (rbind r (fun x => k))
  (at level 10, x pattern, r at level 100, k at level 200) : result_scope.

(** ** Integers as byte strings *)

(** [int.to_bytes(n, 'little')] on the low [n] bytes of [x]. *)
Fixpoint le_bytes (n : nat) (x : Z) : bytes :=
  match n with
  | O => []
  | S n' => x mod 256 :: le_bytes n' (x / 256)
  end.

(** [int.from_bytes(v, 'little')]. *)
Fixpoint le_int (v : bytes) : Z :=
  match v with
  | [] => 0
  | b :: v' => b + 256 * le_int v'
  end.

(** Big-endian counterparts, as [uuid.UUID] uses them. *)
Definition be_bytes (n : nat) (x : Z) : bytes := rev (le_bytes n x).
Definition be_int (v : bytes) : Z := le_int (rev v).

(** ** The checksum: [msgproto.crc16_ccitt] *)

(** Modelled from the spec: [klippy/msgproto.py] is not among the sources.
    The specification asks for a 16-bit CRC of the CCITT family whose value
    on the empty sequence is the constant [NULL_CRC16 = ff ff]; this is the
    byte-at-a-time form of that CRC (polynomial x^16 + x^12 + x^5 + 1, bits
    reflected, register initialised to all ones, no final inversion),
    returned as the two bytes [crc >> 8, crc & 0xff]. *)
Definition crc16_step (crc data : Z) : Z :=
  let data := Z.lxor data (Z.land crc 255) in
  let data := Z.lxor data (Z.shiftl (Z.land data 15) 4) in
  Z.lxor
    (Z.lxor (Z.lor (Z.shiftl data 8) (Z.shiftr crc 8)) (Z.shiftr data 4))
    (Z.shiftl data 3).

Definition crc16_state (buf : bytes) : Z := fold_left crc16_step buf 65535.

Definition crc16_ccitt (buf : bytes) : bytes :=
  let crc := crc16_state buf in
  [Z.shiftr crc 8; Z.land crc 255].

Definition NULL_CRC16 : bytes := [255; 255].

(** ** [uuid.UUID] *)

(** A UUID is its 128-bit integer; equality of UUIDs is equality of it. *)
Record UUID : Type := mkUUID { uuid_int : Z }.

#[global] Instance UUID_eq_dec : EqDecision UUID.
Proof. solve_decision. Defined.

Definition UUID_valid (u : UUID) : Prop := 0 <= uuid_int u < 2 ^ 128.

(** [uuid.UUID(bytes=b)]: exactly 16 bytes, read big-endian. *)
Definition UUID_of_bytes (b : bytes) : result UUID :=
  if decide (length b = 16%nat) then Ok (mkUUID (be_int b))
  else Raise ValueError.

(** [u.bytes]: the integer as 16 big-endian bytes. *)
Definition UUID_bytes (u : UUID) : bytes := be_bytes 16 (uuid_int u).

(** ** [struct.Struct("<2sB16sxxIBH2s2s")] *)

(** The ['Ns'] format: the argument is cut or zero-padded to [n] bytes. *)
Definition pack_s (n : nat) (v : bytes) : bytes :=
  take n v ++ replicate (n - length v) 0.

(** An unsigned integer format of [n] bytes: out of range is an error. *)
Definition pack_uint (n : nat) (x : Z) : result bytes :=
  if decide (0 <= x < 256 ^ Z.of_nat n) then Ok (le_bytes n x)
  else Raise StructError.

Definition Header_size : nat := 32.

Definition struct_pack (magic : bytes) (version : Z) (uid : bytes)
    (timestamp data_page data_length : Z) (data_crc header_crc : bytes)
  : result bytes :=
  (let* version_b := pack_uint 1 version in
   let* timestamp_b := pack_uint 4 timestamp in
   let* data_page_b := pack_uint 1 data_page in
   let* data_length_b := pack_uint 2 data_length in
   Ok (pack_s 2 magic ++ version_b ++ pack_s 16 uid ++ [0; 0]
         ++ timestamp_b ++ data_page_b ++ data_length_b
         ++ pack_s 2 data_crc ++ pack_s 2 header_crc))%res.

(** [v[i:j]] *)
Definition slice (i j : nat) (v : bytes) : bytes := take (j - i) (drop i v).

Definition struct_unpack (v : bytes)
  : result (bytes * Z * bytes * Z * Z * Z * bytes * bytes) :=
  if decide (length v = Header_size) then
    Ok (slice 0 2 v, le_int (slice 2 3 v), slice 3 19 v,
        le_int (slice 21 25 v), le_int (slice 25 26 v),
        le_int (slice 26 28 v), slice 28 30 v, slice 30 32 v)
  else Raise StructError.

(** ** [Header] *)

Record Header : Type := mkHeader {
  magic : bytes;
  version : Z;
  uid : UUID;
  timestamp : Z;
  data_page : Z;
  data_length : Z;
  data_checksum : bytes;
}.

#[global] Instance Header_eq_dec : EqDecision Header.
Proof. solve_decision. Defined.

(** The class attributes [Header.magic] and [Header.version]: the field
    defaults. *)
Definition Header_magic : bytes := [192; 192].
Definition Header_version : Z := 1.

(** [Header()]: every field at its default; the two default factories
    ([uuid.uuid1] and [timestamp_utc]) are the arguments. *)
Definition Header_new (fresh_uid : UUID) (now : Z) : Header :=
  {| magic := Header_magic; version := Header_version; uid := fresh_uid;
     timestamp := now; data_page := 0; data_length := 0;
     data_checksum := NULL_CRC16 |}.

(** [v[:-2]] and [v[-2:]] *)
Definition but_last2 (v : bytes) : bytes := take (length v - 2) v.
Definition last2 (v : bytes) : bytes := drop (length v - 2) v.

Definition from_bytes (v : bytes) : result Header :=
  if decide (take 2 v ≠ Header_magic) then Raise InvalidMagic else
  match v !! 2%nat with
  | None => Raise IndexError
  | Some v2 =>
    if decide (v2 ≠ Header_version) then Raise InvalidVersion else
    if decide (crc16_ccitt (but_last2 v) ≠ last2 v) then Raise InvalidChecksum
    else
      (let* (magic, version, uid_bytes, timestamp, data_page, data_length,
             data_checksum, _header_checksum) := struct_unpack v in
       let* uid := UUID_of_bytes uid_bytes in
       Ok (mkHeader magic version uid timestamp data_page data_length
             data_checksum))%res
  end.

Definition to_bytes (self : Header) : result bytes :=
  (let* dat := struct_pack (magic self) (version self) (UUID_bytes (uid self))
                 (timestamp self) (data_page self) (data_length self)
                 (data_checksum self) NULL_CRC16 in
   Ok (but_last2 dat ++ crc16_ccitt (but_last2 dat)))%res.

(** [self.update(data=...)]; [now] is what [timestamp_utc()] returns. *)
Definition update (self : Header) (now : Z) (data : bytes) : Header :=
  {| magic := magic self; version := version self; uid := uid self;
     timestamp := now;
     data_page := data_page self;
     data_length := Z.of_nat (length data);
     data_checksum := crc16_ccitt data |}.

Definition get_data_address (self : Header) : Z :=
  256 * (data_page self + 1).

(** ** Records: the cached key-value configuration *)

(** The values a record holds.  [PyEllipsis] is the object [...], which
    [CocoaMemory.get] uses as its "no default" sentinel. *)
#[warnings="-register-all"] Inductive PyValue : Type :=
| PyEllipsis
| PyNone
| PyBool (b : bool)
| PyInt (n : Z)
| PyStr (s : string)
| PyList (l : list PyValue)
| PyDict (d : list (string * PyValue)).

(** [val is ...] *)
Definition is_Ellipsis (v : PyValue) : bool :=
  match v with PyEllipsis => true | _ => false end.

(** A [dict] with string keys. *)
Abbreviation Config := (gmap string PyValue).

(** [d[k]] on the pairs of a [PyDict]: the first pair with key [k]. *)
Fixpoint dict_get (k : string) (d : list (string * PyValue))
  : option PyValue :=
  match d with
  | [] => None
  | (k', v) :: d' => if String.eqb k' k then Some v else dict_get k d'
  end.

(** [a == b] on values.  [bool] is a subclass of [int], so [True == 1];
    lists compare element by element; dicts compare as [len(a) == len(b)]
    and, for every key of [a], [b] has the key with an equal value. *)
Fixpoint py_eqb (a b : PyValue) {struct a} : bool :=
  match a, b with
  | PyEllipsis, PyEllipsis => true
  | PyNone, PyNone => true
  | PyBool x, PyBool y => Bool.eqb x y
  | PyBool x, PyInt n => Z.b2z x =? n
  | PyInt n, PyBool y => n =? Z.b2z y
  | PyInt n, PyInt m => n =? m
  | PyStr s, PyStr t => String.eqb s t
  | PyList l, PyList l' =>
    (fix list_eqb (l l' : list PyValue) {struct l} : bool :=
       match l, l' with
       | [], [] => true
       | x :: l, y :: l' => py_eqb x y && list_eqb l l'
       | _, _ => false
       end) l l'
  | PyDict d, PyDict d' =>
    (length d =? length d')%nat
    && (fix all_in (d : list (string * PyValue)) {struct d} : bool :=
          match d with
          | [] => true
          | (k, v) :: d =>
            match dict_get k d' with
            | Some v' => py_eqb v v'
            | None => false
            end && all_in d
          end) d
  | _, _ => false
  end.

(** [a == b] on two records. *)
Definition config_eqb (a b : Config) : bool :=
  (size a =? size b)%nat
  && forallb (fun kv : string * PyValue =>
                match b !! kv.1 with
                | Some v' => py_eqb kv.2 v'
                | None => false
                end) (map_to_list a).

(** [a != b] where either side may be [None]. *)
Definition config_ne (a b : option Config) : bool :=
  match a, b with
  | None, None => false
  | Some a, Some b => negb (config_eqb a b)
  | _, _ => true
  end.

(** The keys of every dict inside a value are distinct, as they are in any
    Python [dict]. *)
Fixpoint py_wf (v : PyValue) : Prop :=
  match v with
  | PyList l =>
    (fix all_wf (l : list PyValue) : Prop :=
       match l with
       | [] => True
       | x :: l => py_wf x /\ all_wf l
       end) l
  | PyDict d =>
    NoDup (fst <$> d)
    /\ (fix all_wf (d : list (string * PyValue)) : Prop :=
          match d with
          | [] => True
          | (_, x) :: d => py_wf x /\ all_wf d
          end) d
  | _ => True
  end.

Definition config_wf (c : option Config) : Prop :=
  match c with
  | Some c => map_Forall (fun _ v => py_wf v) c
  | None => True
  end.

(** Reactor times are floating-point numbers; they are taken with their
    addition and with the constant [AUTOSAVE_INTERVAL = 1.0]. *)
Class Floats (F : Type) : Type := {
  float_add : F -> F -> F;
  AUTOSAVE_INTERVAL : F;
}.

(** ** External collaborators *)

(** The [Memory] object of [klippy/extras/memory.py], taken at its
    interface: a device state with addressable reads and writes, either of
    which may raise [CommandError]. *)
Class Memory (D : Type) : Type := {
  read : D -> Z -> Z -> result bytes;
  write : D -> Z -> bytes -> result unit * D;
}.

(** The payload codec, [msgpack.dumps] / [msgpack.loads], taken as a
    parameter.  [dumps] also accepts [None] (an absent record); [loads]
    is taken on payloads that hold a mapping. *)
Class PayloadCodec : Type := {
  dumps : option Config -> result bytes;
  loads : bytes -> result Config;
}.

(** What the controller does to the outside, in program order. *)
Inductive Event : Type :=
| EvRead (address length : Z)               (* memory.read *)
| EvWrite (address : Z) (data : bytes)      (* memory.write *)
| EvTimer (armed : bool)                    (* reactor.update_timer *)
| EvRespond (who : PyValue + UUID)          (* gcode.respond_info *)
| EvReady (connected : bool) (config : option Config).  (* send_event *)

(** ** [CocoaMemory] *)

Record CocoaMemory : Type := mkCocoaMemory {
  connected : bool;
  header : option Header;
  config : option Config;
  _last_header : option Header;
  _last_config : option Config;
}.

(** The object as [__init__] leaves it. *)
Definition CocoaMemory_init : CocoaMemory :=
  {| connected := false; header := None; config := None;
     _last_header := None; _last_config := None |}.

Definition set_connected (b : bool) (s : CocoaMemory) : CocoaMemory :=
  {| connected := b; header := header s; config := config s;
     _last_header := _last_header s; _last_config := _last_config s |}.
Definition set_header (h : option Header) (s : CocoaMemory) : CocoaMemory :=
  {| connected := connected s; header := h; config := config s;
     _last_header := _last_header s; _last_config := _last_config s |}.
Definition set_config (c : option Config) (s : CocoaMemory) : CocoaMemory :=
  {| connected := connected s; header := header s; config := c;
     _last_header := _last_header s; _last_config := _last_config s |}.
Definition set_last_header (h : option Header) (s : CocoaMemory)
  : CocoaMemory :=
  {| connected := connected s; header := header s; config := config s;
     _last_header := h; _last_config := _last_config s |}.
Definition set_last_config (c : option Config) (s : CocoaMemory)
  : CocoaMemory :=
  {| connected := connected s; header := header s; config := config s;
     _last_header := _last_header s; _last_config := c |}.

(** The state a method runs in: the object, the device behind
    [self.memory], and the events emitted so far. *)
Record Sys (D : Type) : Type := mkSys {
  self : CocoaMemory;
  device : D;
  trace : list Event;
}.
Arguments mkSys {D} _ _ _.
Arguments self {D} _.
Arguments device {D} _.
Arguments trace {D} _.

(** A method body: it returns or raises, and either way leaves a state. *)
Definition M (D A : Type) : Type := Sys D -> result A * Sys D.

Definition ret {D A} (a : A) : M D A := fun s => (Ok a, s).
Definition raise {D A} (e : exn) : M D A := fun s => (Raise e, s).
Definition bind {D A B} (m : M D A) (k : A -> M D B) : M D B :=
  fun s => match m s with
           | (Ok a, s') => k a s'
           | (Raise e, s') => (Raise e, s')
           end.
Definition lift {D A} (r : result A) : M D A := fun s => (r, s).
Definition get_self {D} : M D CocoaMemory := fun s => (Ok (self s), s).
Definition modify {D} (f : CocoaMemory -> CocoaMemory) : M D unit :=
  fun s => (Ok tt, mkSys (f (self s)) (device s) (trace s)).
Definition emit {D} (e : Event) : M D unit :=
  fun s => (Ok tt, mkSys (self s) (device s) (trace s ++ [e])).

(** [try: m except E: ...]: hands the outcome of [m] to the continuation. *)
Definition try {D A} (m : M D A) : M D (result A) :=
  fun s => let '(r, s') := m s in (Ok r, s').

Declare Scope M_scope.
Delimit Scope M_scope with M.
Notation "x <- m ;; k" := (bind m (fun x => k))
  (at level 100, m at next level, right associativity) : M_scope.
Notation "m ;; k" := (bind m (fun _ => k))
  (at level 100, right associativity) : M_scope.

Section Controller.
Context {D : Type} `{!Memory D} `{!PayloadCodec}.

Local Open Scope M_scope.

(** [self.memory.read(address, length)] *)
Definition memory_read (address length : Z) : M D bytes :=
  emit (EvRead address length);;
  (fun s => (read (device s) address length, s)).

(** [self.memory.write(address, data)] *)
Definition memory_write (address : Z) (data : bytes) : M D unit :=
  emit (EvWrite address data);;
  (fun s => let '(r, d) := write (device s) address data in
            (r, mkSys (self s) d (trace s))).

(** [save]; [now] is the reading [timestamp_utc()] returns inside
    [Header.update]. *)
Definition save (now : Z) : M D unit :=
  this <- get_self;;
  config_b <- lift (dumps (config this));;
  match header this with
  | None => raise AttributeError
  | Some h =>
    let new_header := update h now config_b in
    memory_write (get_data_address new_header) config_b;;
    header_b <- lift (to_bytes new_header);;
    memory_write 0 header_b;;
    modify (set_header (Some new_header));;
    this <- get_self;;
    modify (set_last_config (config this))
  end.

(** Truth value of [self._last_config]: a non-empty dict. *)
Definition truthy (c : option Config) : bool :=
  match c with
  | Some c => negb (bool_decide (c = ∅))
  | None => false
  end.

(** [self.config.get('name', self.header.uid)] in the attach message. *)
Definition attached_label (this : CocoaMemory) : M D (PyValue + UUID) :=
  match config this with
  | None => raise AttributeError
  | Some c =>
    match c !! "name"%string with
    | Some v => ret (inl v)
    | None =>
      match header this with
      | Some h => ret (inr (uid h))
      | None => raise AttributeError
      end
    end
  end.

(** [_attached]; the environment supplies [fresh_uid] ([uuid.uuid1()]),
    [name] ([generate_name()]), and the clock readings [t_new] (taken by
    [Header()]) and [t_save] (taken by [save]). *)
Definition _attached (fresh_uid : UUID) (name : string) (t_new t_save : Z)
  : M D unit :=
  r <- try (memory_read 0 (Z.of_nat Header_size));;
  match r with
  | Raise e =>
    if is_CommandError e then
      modify (set_connected false);;
      this <- get_self;;
      emit (EvReady (connected this) (config this))
    else raise e
  | Ok header_data =>
    modify (set_connected true);;
    (match from_bytes header_data with
     | Raise e =>
       if is_HeaderError e then
         modify (set_header (Some (Header_new fresh_uid t_new)));;
         modify (set_last_header (Some (Header_new fresh_uid t_new)));;
         modify (set_config (Some {[ "name"%string := PyStr name ]}));;
         save t_save
       else raise e
     | Ok h =>
       modify (set_header (Some h));;
       if decide (data_length h > 0) then
         this <- get_self;;
         (if bool_decide (Some h = _last_header this)
             && truthy (_last_config this)
          then ret tt
          else
            data <- memory_read (get_data_address h) (data_length h);;
            c <- lift (loads data);;
            modify (set_last_config (Some c)));;
         this <- get_self;;
         modify (set_config (_last_config this))
       else modify (set_config (Some ∅))
     end);;
    emit (EvTimer true);;
    this <- get_self;;
    who <- attached_label this;;
    emit (EvRespond who);;
    this <- get_self;;
    emit (EvReady (connected this) (config this))
  end.

(** The statements of [_attached] that follow its [try] statement, on
    their own: the timer, the message, the readiness event. *)
Definition attached_epilogue : M D unit :=
  emit (EvTimer true);;
  this <- get_self;;
  who <- attached_label this;;
  emit (EvRespond who);;
  this <- get_self;;
  emit (EvReady (connected this) (config this)).

(** [_on_detach] *)
Definition _on_detach : M D unit :=
  modify (set_connected false);;
  modify (set_header None);;
  modify (set_config None);;
  emit (EvTimer false).

(** [has_changes] *)
Definition has_changes (this : CocoaMemory) : bool :=
config_ne (config this) (_last_config this).

(** [_autosave]; [now] is the clock reading [save] takes when it runs. *)
Definition _autosave {F : Type} `{!Floats F} (now : Z) (eventtime : F)
  : M D F :=
this <- get_self;;
(if has_changes this then save now else ret tt);;
ret (float_add eventtime AUTOSAVE_INTERVAL).

End Controller.

(** ** The key-value accessors *)

(** Each accessor returns its outcome and the object it leaves.  With no
    record ([config] is [None]) the dict operation itself fails. *)

Definition has (key : string) (this : CocoaMemory)
  : result bool * CocoaMemory :=
  if negb (connected this) then (Raise MemoryNotConnected, this) else
  match config this with
  | None => (Raise TypeError, this)
  | Some c => (Ok (bool_decide (is_Some (c !! key))), this)
  end.

(** [get(key, default=...)] *)
Definition get (key : string) (default : PyValue) (this : CocoaMemory)
  : result PyValue * CocoaMemory :=
  if negb (connected this) then (Raise MemoryNotConnected, this) else
  match config this with
  | None => (Raise AttributeError, this)
  | Some c =>
    let val := match c !! key with Some v => v | None => default end in
    if is_Ellipsis val then (Raise KeyError, this) else (Ok val, this)
  end.

Definition set (key : string) (val : PyValue) (this : CocoaMemory)
  : result unit * CocoaMemory :=
  if negb (connected this) then (Raise MemoryNotConnected, this) else
  match config this with
  | None => (Raise TypeError, this)
  | Some c => (Ok tt, set_config (Some (<[key := val]> c)) this)
  end.

Definition setdefault (key : string) (default : PyValue) (this : CocoaMemory)
  : result PyValue * CocoaMemory :=
  if negb (connected this) then (Raise MemoryNotConnected, this) else
  match config this with
  | None => (Raise AttributeError, this)
  | Some c =>
    match c !! key with
    | Some v => (Ok v, this)
    | None => (Ok default, set_config (Some (<[key := default]> c)) this)
    end
  end.

Definition delete (key : string) (this : CocoaMemory)
  : result unit * CocoaMemory :=
  if negb (connected this) then (Raise MemoryNotConnected, this) else
  match config this with
  | None => (Raise TypeError, this)
  | Some c =>
    if bool_decide (is_Some (c !! key))
    then (Ok tt, set_config (Some (base.delete key c)) this)
    else (Ok tt, this)
  end.

(** ** Sequences of controller operations *)

(** An accessor, run on the object of a state. *)
Definition on_self {D A : Type} (f : CocoaMemory -> result A * CocoaMemory)
    (s : Sys D) : Sys D :=
  mkSys (f (self s)).2 (device s) (trace s).

(** The states a controller can be in: it starts as [__init__] leaves it,
    over any device, and then any of its methods runs, any number of
    times; in between the device may be exchanged or its content change. *)
Inductive reachable {D F : Type} `{!Memory D} `{!PayloadCodec} `{!Floats F}
  : Sys D -> Prop :=
| reach_init d : reachable (mkSys CocoaMemory_init d [])
| reach_device s d : reachable s -> reachable (mkSys (self s) d (trace s))
| reach_attached s fresh_uid name t_new t_save :
    reachable s -> reachable (_attached fresh_uid name t_new t_save s).2
| reach_detach s : reachable s -> reachable (_on_detach s).2
| reach_save s now : reachable s -> reachable (save now s).2
| reach_autosave s now (eventtime : F) :
    reachable s -> reachable (_autosave now eventtime s).2
| reach_has s key : reachable s -> reachable (on_self (has key) s)
| reach_get s key default :
    reachable s -> reachable (on_self (get key default) s)
| reach_set s key val : reachable s -> reachable (on_self (set key val) s)
| reach_setdefault s key default :
    reachable s -> reachable (on_self (setdefault key default) s)
| reach_delete s key : reachable s -> reachable (on_self (delete key) s).

(** Induction on values that reaches inside lists and dicts. *)
Section PyValue_nested_ind.
Variable P : PyValue -> Prop.
Hypothesis HEllipsis : P PyEllipsis.
Hypothesis HNone : P PyNone.
Hypothesis HBool : forall b, P (PyBool b).
Hypothesis HInt : forall n, P (PyInt n).
Hypothesis HStr : forall s, P (PyStr s).
Hypothesis HList : forall l, Forall P l -> P (PyList l).
Hypothesis HDict : forall d, Forall (fun kv => P kv.2) d -> P (PyDict d).

Fixpoint PyValue_nested_ind (v : PyValue) : P v :=
  match v with
  | PyEllipsis => HEllipsis
  | PyNone => HNone
  | PyBool b => HBool b
  | PyInt n => HInt n
  | PyStr s => HStr s
  | PyList l =>
    HList l
      ((fix go (l : list PyValue) : Forall P l :=
          match l with
          | [] => @List.Forall_nil _ P
          | x :: l' => @List.Forall_cons _ P x l' (PyValue_nested_ind x) (go l')
          end) l)
  | PyDict d =>
    HDict d
      ((fix go (d : list (string * PyValue))
          : Forall (fun kv => P kv.2) d :=
          match d with
          | [] => @List.Forall_nil _ _
          | kv :: d' =>
            @List.Forall_cons _ (fun kv => P kv.2) kv d'
              (PyValue_nested_ind kv.2) (go d')
          end) d)
  end.
End PyValue_nested_ind.

(** ** [toolhead.py]: attachment detection *)

(** ADC readings are floating-point numbers; all the code does with one is
    compare it with [OPEN_ADC_VALUE = 0.99]. *)
Class AdcValue (F : Type) : Type := {
  below_open : F -> bool;              (* value < OPEN_ADC_VALUE *)
}.

(** The part of [CocoaToolheadControl] that attachment detection uses. *)
Record CocoaToolheadControl (F : Type) : Type := mkToolhead {
  attached : option bool;
  last_readings : gmap string F;
}.
Arguments mkToolhead {F} _ _.
Arguments attached {F} _.
Arguments last_readings {F} _.

(** What a sensor callback does to the outside, in program order. *)
Inductive ToolEvent (F : Type) : Type :=
| TvAdcCallback (read_time read_value : F)   (* sensor.adc_callback *)
| TvSetPwmOff (read_time : F)                (* heater.set_pwm(read_time, 0.0) *)
| TvVerifyReset                              (* verify_heater.error = 0.0 *)
| TvRespond (is_attached : bool)             (* gcode.respond_info *)
| TvSendEvent (is_attached : bool)           (* ...:attached / ...:detached *)
| TvRunGcode (is_attached : bool).           (* attach_tmpl() / detach_tmpl() *)
Arguments TvAdcCallback {F} _ _.
Arguments TvSetPwmOff {F} _.
Arguments TvVerifyReset {F}.
Arguments TvRespond {F} _.
Arguments TvSendEvent {F} _.
Arguments TvRunGcode {F} _.

(** [receive_sensor_value(heater, value)]; [heater] is [heater.name]. *)
Definition receive_sensor_value {F : Type} `{!AdcValue F}
    (heater : string) (value : F) (this : CocoaToolheadControl F)
  : CocoaToolheadControl F * list (ToolEvent F) :=
  let readings := <[heater := value]> (last_readings this) in
  let is_attached := below_open value in
  if bool_decide (Some is_attached ≠ attached this) then
    (mkToolhead (Some is_attached) readings,
     [TvRespond is_attached; TvSendEvent is_attached; TvRunGcode is_attached])
  else (mkToolhead (attached this) readings, []).

(** [new_callback(read_time, read_value)], the ADC callback that
    [inject_adc_callback] installs for [heater]. *)
Definition new_callback {F : Type} `{!AdcValue F}
    (heater : string) (read_time read_value : F)
    (this : CocoaToolheadControl F)
  : CocoaToolheadControl F * list (ToolEvent F) :=
  let first :=
    if below_open read_value then [TvAdcCallback read_time read_value]
    else [TvSetPwmOff read_time; TvVerifyReset] in
  let '(this', evs) := receive_sensor_value heater read_value this in
  (this', first ++ evs).

(** A run of ADC callbacks, each a heater name, a time and a value. *)
Fixpoint run_callbacks {F : Type} `{!AdcValue F}
    (rs : list (string * F * F)) (this : CocoaToolheadControl F)
  : CocoaToolheadControl F * list (ToolEvent F) :=
  match rs with
  | [] => (this, [])
  | (heater, read_time, read_value) :: rs' =>
    let '(this1, evs1) := new_callback heater read_time read_value this in
    let '(this2, evs2) := run_callbacks rs' this1 in
    (this2, evs1 ++ evs2)
  end.



(** Readings where [true] stands for a value below [OPEN_ADC_VALUE]. *)
#[global] Instance bool_AdcValue : AdcValue bool := {| below_open := id |}.

(** ** [nozzle_offsets.py]: the saved offsets in [get_status] *)

(** [k.startswith(p)] is [String.prefix p k]; [k.removeprefix(p)]: *)
Fixpoint str_drop (n : nat) (k : string) : string :=
  match n, k with
  | S n', String _ k' => str_drop n' k'
  | _, _ => k
  end.

Definition removeprefix (p k : string) : string :=
  if String.prefix p k then str_drop (String.length p) k else k.

(** [self._prefix], from [mux_name] (an empty name counts as none). *)
Definition offsets_prefix (mux_name : option string) : string :=
  match mux_name with
  | Some m => if decide (m = EmptyString) then "z_offset_"
              else "z_offset_" +:+ m +:+ "_"
  | None => "z_offset_"
  end.

(** The dict comprehension under ["saved"]: the items of [allVariables]
    are visited one by one, and an item whose key starts with the prefix
    is stored under the rest of its key. *)
Definition get_status_saved {V : Type} (prefix : string)
    (allVariables : gmap string V) : gmap string V :=
  foldl (fun acc kv =>
           if String.prefix prefix kv.1
           then <[removeprefix prefix kv.1 := kv.2]> acc else acc)
    ∅ (map_to_list allVariables).

(** ** Stand-ins for the collaborators *)

(** A byte-addressable device for running the controller on concrete
    inputs: [cells] is its whole content, and [writes_left] bounds how many
    writes succeed before the device stops answering.  Accesses outside
    the content fail. *)
Record RamDevice : Type := mkRam {
  cells : bytes;
  writes_left : nat;
}.

Definition ram_read (d : RamDevice) (address length : Z) : result bytes :=
  if decide (0 <= address /\ 0 <= length
             /\ address + length <= Z.of_nat (List.length (cells d)))
  then Ok (take (Z.to_nat length) (drop (Z.to_nat address) (cells d)))
  else Raise CommandError.

Definition ram_write (d : RamDevice) (address : Z) (data : bytes)
  : result unit * RamDevice :=
  match writes_left d with
  | O => (Raise CommandError, d)
  | S k =>
    if decide (0 <= address
               /\ address + Z.of_nat (length data)
                  <= Z.of_nat (length (cells d)))
    then (Ok tt,
          mkRam (take (Z.to_nat address) (cells d) ++ data
                   ++ drop (Z.to_nat address + length data) (cells d)) k)
    else (Raise CommandError, d)
  end.

#[global] Instance RamDevice_Memory : Memory RamDevice :=
  {| read := ram_read; write := ram_write |}.

(** A fragment of MessagePack, enough for flat records: a [fixmap] whose
    keys are [fixstr] and whose values are nil, booleans, positive fixints
    or ASCII [fixstr]s.  Anything outside the fragment is [CodecError]. *)
Definition str_bytes (s : string) : bytes :=
  (fun a => Z.of_nat (nat_of_ascii a)) <$> list_ascii_of_string s.

Definition bytes_str (v : bytes) : string :=
  string_of_list_ascii ((fun b => ascii_of_nat (Z.to_nat b)) <$> v).

Definition mp_pack_str (s : string) : result bytes :=
  let v := str_bytes s in
  if decide (Z.of_nat (length v) < 32 /\ Forall (fun b => b < 128) v)
  then Ok (160 + Z.of_nat (length v) :: v)
  else Raise CodecError.

Definition mp_pack_value (v : PyValue) : result bytes :=
  match v with
  | PyNone => Ok [192]
  | PyBool false => Ok [194]
  | PyBool true => Ok [195]
  | PyInt n => if decide (0 <= n < 128) then Ok [n] else Raise CodecError
  | PyStr s => mp_pack_str s
  | _ => Raise CodecError
  end.

Fixpoint mp_pack_pairs (l : list (string * PyValue)) : result bytes :=
  match l with
  | [] => Ok []
  | (k, v) :: l' =>
    (let* kb := mp_pack_str k in
     let* vb := mp_pack_value v in
     let* rest := mp_pack_pairs l' in
     Ok (kb ++ vb ++ rest))%res
  end.

Definition mp_dumps (c : option Config) : result bytes :=
  match c with
  | None => Ok [192]
  | Some c =>
    let l := map_to_list c in
    if decide (length l < 16)%nat
    then (let* body := mp_pack_pairs l in
          Ok (128 + Z.of_nat (length l) :: body))%res
    else Raise CodecError
  end.

Definition mp_unpack_str (v : bytes) : result (string * bytes) :=
  match v with
  | b :: rest =>
    let n := Z.to_nat (b - 160) in
    if decide (160 <= b < 192 /\ (n <= length rest)%nat
               /\ Forall (fun x => 0 <= x < 128) (take n rest))
    then Ok (bytes_str (take n rest), drop n rest)
    else Raise CodecError
  | [] => Raise CodecError
  end.

Definition mp_unpack_value (v : bytes) : result (PyValue * bytes) :=
  match v with
  | b :: rest =>
    if decide (0 <= b < 128) then Ok (PyInt b, rest)
    else if decide (b = 192) then Ok (PyNone, rest)
    else if decide (b = 194) then Ok (PyBool false, rest)
    else if decide (b = 195) then Ok (PyBool true, rest)
    else (let* (s, rest') := mp_unpack_str v in Ok (PyStr s, rest'))%res
  | [] => Raise CodecError
  end.

Fixpoint mp_unpack_pairs (n : nat) (acc : Config) (v : bytes)
  : result (Config * bytes) :=
  match n with
  | O => Ok (acc, v)
  | S n' =>
    (let* (k, v1) := mp_unpack_str v in
     let* (x, v2) := mp_unpack_value v1 in
     mp_unpack_pairs n' (<[k := x]> acc) v2)%res
  end.

Definition mp_loads (v : bytes) : result Config :=
  match v with
  | b :: rest =>
    if decide (128 <= b < 144) then
      (let* (c, rest') := mp_unpack_pairs (Z.to_nat (b - 128)) ∅ rest in
       if decide (rest' = []) then Ok c else Raise CodecError)%res
    else Raise CodecError
  | [] => Raise CodecError
  end.

#[global] Instance msgpack_fragment : PayloadCodec :=
  {| dumps := mp_dumps; loads := mp_loads |}.

(** A blank device of [n] bytes, every cell reading [ff]. *)
Definition blank_device (n : nat) : RamDevice := mkRam (replicate n 255) 2.

Definition boot (d : RamDevice) : Sys RamDevice :=
  mkSys CocoaMemory_init d [].

(** A connected controller holding a fresh header and a one-key record,
    over a blank device that accepts [n] writes. *)
Definition named_state (n : nat) : Sys RamDevice :=
  mkSys
    {| connected := true;
       header := Some (Header_new (mkUUID 7) 1700000000);
       config := Some {[ "name"%string := PyStr "cocoa" ]};
       _last_header := Some (Header_new (mkUUID 7) 1700000000);
       _last_config := None |}
    (mkRam (replicate 512 255) n) [].

(** A device as a save of [{"name": "cocoa"}] leaves it, except that the
    last payload byte has changed since (97 became 98): the header is
    valid and its [data_checksum], [250; 4], is not the checksum of the
    twelve payload bytes at address 256. *)
Definition saved_header_bytes : bytes :=
  [192; 192; 1; 0; 0; 0; 0; 0; 0; 0; 0; 0; 0; 0; 0; 0; 0; 0; 7; 0;
   0; 1; 241; 83; 101; 0; 12; 0; 250; 4; 44; 172].

Definition corrupted_payload : bytes :=
  [129; 164; 110; 97; 109; 101; 165; 99; 111; 99; 111; 98].

Definition corrupted_device : RamDevice :=
  mkRam (saved_header_bytes ++ replicate 224 255 ++ corrupted_payload
           ++ replicate 244 255) 2.

(** Whole seconds in the place of reactor times, for running [_autosave]
    on concrete inputs. *)
#[global] Instance seconds_Floats : Floats Z :=
  {| float_add := Z.add; AUTOSAVE_INTERVAL := 1 |}.

(** A controller that was attached to a blank device, whose device then
    accepts two more writes, and in which one key was set since. *)
Definition initialized_state : Sys RamDevice :=
  let s := (_attached (mkUUID 7) "cocoa" 1700000000 1700000001
              (boot (blank_device 512))).2 in
  mkSys (self s) (mkRam (cells (device s)) 2) (trace s).

Definition edited_state : Sys RamDevice :=
  on_self (set "profile" (PyInt 3)) initialized_state.

(** The encoding of [Header()] itself: a valid header with no payload. *)
Definition empty_header_bytes : bytes :=
  [192; 192; 1; 0; 0; 0; 0; 0; 0; 0; 0; 0; 0; 0; 0; 0; 0; 0; 7; 0;
   0; 0; 241; 83; 101; 0; 0; 0; 255; 255; 193; 129].

(** A device that holds that header and nothing else of interest, one
    that holds only the 32 header bytes of a saved record (so that the
    payload read fails), and one that answers no read at all. *)
Definition empty_record_device : RamDevice :=
  mkRam (empty_header_bytes ++ replicate 480 255) 2.

Definition truncated_device : RamDevice := mkRam saved_header_bytes 2.

Definition absent_device : RamDevice := mkRam [] 0.

(** The controller after [_attached] on [truncated_device]: the header
    decoded, the payload read raised, and the exception escaped. *)
Definition half_attached_state : Sys RamDevice :=
  (_attached (mkUUID 9) "fresh" 1700000100 1700000101
     (boot truncated_device)).2.

(** Flip bit [k] of byte [i]. *)
Definition flip_bit (i : nat) (k : Z) (v : bytes) : bytes :=
  alter (fun b => Z.lxor b (Z.shiftl 1 k)) i v.

(** ** The checksum step, taken apart *)

(** The two lines of [crc16_step] that rework [data], and the line that
    builds the new register from it and from [crc >> 8]. *)
Definition crc16_fold_nibble (x : Z) : Z :=
  Z.lxor x (Z.shiftl (Z.land x 15) 4).

Definition crc16_mix (y h : Z) : Z :=
  Z.lxor (Z.lxor (Z.lor (Z.shiftl y 8) h) (Z.shiftr y 4)) (Z.shiftl y 3).

(** Reading [y] and [h] back from [crc16_mix y h]. *)
Definition crc16_unmix (c : Z) : Z * Z :=
  let hi := Z.shiftr c 8 in
  let y := Z.lxor hi (Z.shiftr hi 5) in
  (y, Z.lxor (Z.lxor (Z.lxor c (Z.shiftl y 8)) (Z.shiftr y 4)) (Z.shiftl y 3)).

(** The integers [0 .. n-1], for checks by enumeration. *)
Definition below (n : nat) : list Z := Z.of_nat <$> seq 0 n.

Definition mix_check (y h : Z) : bool :=
  let c := crc16_mix y h in
  (0 <=? c) && (c <? 65536)
  && (fst (crc16_unmix c) =? y) && (snd (crc16_unmix c) =? h).

Definition nibble_check (x : Z) : bool :=
  let y := crc16_fold_nibble x in
  (0 <=? y) && (y <? 256) && (crc16_fold_nibble y =? x).

Definition lxor_check (a b : Z) : bool :=
  let c := Z.lxor a b in (0 <=? c) && (c <? 256).

Definition flip_check (k x : Z) : bool :=
  let c := Z.lxor x (Z.shiftl 1 k) in
  (0 <=? c) && (c <? 256) && negb (c =? x).

(** ** Headers of this codec *)

(** The field ranges of the 32-byte layout. *)
Definition Header_wf (h : Header) : Prop :=
  magic h = Header_magic /\ version h = Header_version
  /\ UUID_valid (uid h)
  /\ 0 <= timestamp h < 2 ^ 32
  /\ 0 <= data_page h < 256
  /\ 0 <= data_length h < 2 ^ 16
  /\ length (data_checksum h) = 2%nat.

(** The headers the controller makes: [Header()], and [update] of one of
    them, on a payload whose length fits the 16-bit field and at a clock
    reading that fits the 32-bit field. *)
Inductive produced : Header -> Prop :=
| produced_new fresh_uid now :
    UUID_valid fresh_uid -> 0 <= now < 2 ^ 32 ->
    produced (Header_new fresh_uid now)
| produced_update h now d :
    produced h -> 0 <= now < 2 ^ 32 -> Z.of_nat (length d) < 2 ^ 16 ->
    produced (update h now d).

(** * Properties *)

Example crc_empty : crc16_ccitt [] = NULL_CRC16.
Proof. reflexivity. Qed.

Example hdr_ex :
  rbind (to_bytes (Header_new (mkUUID 5) 1700000000)) from_bytes
  = Ok (Header_new (mkUUID 5) 1700000000).
Proof. vm_compute. reflexivity. Qed.

Example crc_check_string :
  crc16_ccitt (str_bytes "123456789") = [111; 145].
Proof. reflexivity. Qed.

(** ** Byte strings and the struct layout *)

Lemma length_le_bytes n x : length (le_bytes n x) = n.
Proof. revert x. induction n as [|n IH]; intros x; simpl; [done|]. by rewrite IH. Qed.

Lemma le_int_le_bytes n x :
  0 <= x < 256 ^ Z.of_nat n -> le_int (le_bytes n x) = x.
Proof.
  revert x. induction n as [|n IH]; intros x Hx.
  - simpl in *. lia.
  - rewrite Nat2Z.inj_succ, Z.pow_succ_r in Hx by lia.
    cbn [le_bytes le_int]. rewrite IH.
    + pose proof (Z.div_mod x 256). lia.
    + split; [apply Z.div_pos; lia | apply Z.div_lt_upper_bound; lia].
Qed.

Lemma le_bytes_is_bytes n x : is_bytes (le_bytes n x).
Proof.
  revert x. induction n as [|n IH]; intros x; cbn [le_bytes].
  - constructor.
  - constructor; [|apply IH]. unfold is_byte. apply Z.mod_pos_bound. lia.
Qed.

Lemma be_int_be_bytes n x :
  0 <= x < 256 ^ Z.of_nat n -> be_int (be_bytes n x) = x.
Proof.
  intros Hx. unfold be_int, be_bytes. rewrite rev_involutive.
  by apply le_int_le_bytes.
Qed.

Lemma length_be_bytes n x : length (be_bytes n x) = n.
Proof. unfold be_bytes. by rewrite length_rev, length_le_bytes. Qed.

Lemma length_pack_s n v : length (pack_s n v) = n.
Proof.
  unfold pack_s. rewrite length_app, length_take, length_replicate. lia.
Qed.

Lemma pack_s_exact n v : length v = n -> pack_s n v = v.
Proof.
  intros <-. unfold pack_s.
  by rewrite firstn_all, Nat.sub_diag, app_nil_r.
Qed.

Lemma pack_uint_Ok n x v :
  pack_uint n x = Ok v -> 0 <= x < 256 ^ Z.of_nat n /\ v = le_bytes n x.
Proof. unfold pack_uint. case_decide; [|done]. by intros [= <-]. Qed.

Lemma length_crc16_ccitt v : length (crc16_ccitt v) = 2%nat.
Proof. reflexivity. Qed.

Lemma struct_pack_length m ver u ts pg len c hc dat :
  struct_pack m ver u ts pg len c hc = Ok dat -> length dat = Header_size.
Proof.
  unfold struct_pack, rbind.
  destruct (pack_uint 1 ver) as [vb|] eqn:Hv; [|done].
  destruct (pack_uint 4 ts) as [tb|] eqn:Ht; [|done].
  destruct (pack_uint 1 pg) as [pb|] eqn:Hp; [|done].
  destruct (pack_uint 2 len) as [lb|] eqn:Hl; [|done].
  apply pack_uint_Ok in Hv as [_ ->], Ht as [_ ->], Hp as [_ ->], Hl as [_ ->].
  intros [= <-].
  repeat (rewrite ?length_app, ?length_pack_s; cbn [length]). reflexivity.
Qed.

Lemma but_last2_app (a c : bytes) :
  length c = 2%nat -> but_last2 (a ++ c) = a.
Proof.
  intros Hc. unfold but_last2. rewrite length_app, Hc.
  replace (length a + 2 - 2)%nat with (length a) by lia.
  by rewrite take_app_length.
Qed.

Lemma last2_app (a c : bytes) :
  length c = 2%nat -> last2 (a ++ c) = c.
Proof.
  intros Hc. unfold last2. rewrite length_app, Hc.
  replace (length a + 2 - 2)%nat with (length a) by lia.
  by rewrite drop_app_length.
Qed.

Lemma but_last2_last2 (v : bytes) : but_last2 v ++ last2 v = v.
Proof. unfold but_last2, last2. apply take_drop. Qed.

(** ** C8: [Header.update] *)

(** C8. [Header.update(h, data=d)] returns a header whose [data_length] is
    [len(d)], whose [data_checksum] is the checksum of [d] and whose
    [timestamp] is the clock reading, with [magic], [version], [uid] and
    [data_page] carried over from [h].  [update] is a function from
    header values to header values: the frozen [h] is an argument, never
    written. *)
Theorem update_sets_payload_fields (h : Header) (now : Z) (d : bytes) :
  let h' := update h now d in
  data_length h' = Z.of_nat (length d)
  /\ data_checksum h' = crc16_ccitt d
  /\ timestamp h' = now
  /\ magic h' = magic h /\ version h' = version h
  /\ uid h' = uid h /\ data_page h' = data_page h.
Proof. cbv zeta. unfold update; cbn. by repeat split. Qed.

(** ** C6: the order of the checks in [Header.from_bytes] *)

Lemma from_bytes_32_cases (v : bytes) :
  length v = 32%nat ->
  from_bytes v =
    if decide (take 2 v ≠ Header_magic) then Raise InvalidMagic
    else if decide (v !! 2%nat ≠ Some Header_version) then Raise InvalidVersion
    else if decide (crc16_ccitt (take 30 v) ≠ drop 30 v)
         then Raise InvalidChecksum
    else Ok (mkHeader (slice 0 2 v) (le_int (slice 2 3 v))
               (mkUUID (be_int (slice 3 19 v)))
               (le_int (slice 21 25 v)) (le_int (slice 25 26 v))
               (le_int (slice 26 28 v)) (slice 28 30 v)).
Proof.
  intros Hlen. unfold from_bytes, but_last2, last2. rewrite Hlen.
  change (32 - 2)%nat with 30%nat.
  destruct (decide (take 2 v ≠ Header_magic)) as [|_]; [done|].
  destruct (v !! 2%nat) as [v2|] eqn:Hv2.
  2:{ apply lookup_ge_None in Hv2. lia. }
  destruct (decide (v2 ≠ Header_version)) as [Hne|He].
  - rewrite decide_True; [done | congruence].
  - rewrite (decide_False (P := Some v2 ≠ Some Header_version)).
    2:{ intros Hc. apply Hc. f_equal. by destruct (decide (v2 = Header_version)). }
    destruct (decide (crc16_ccitt (take 30 v) ≠ drop 30 v)); [done|].
    unfold struct_unpack, Header_size. rewrite decide_True by done.
    unfold rbind, UUID_of_bytes. rewrite decide_True; [done|].
    unfold slice. rewrite length_take, length_drop. lia.
Qed.

(** C6. On a 32-byte input, [from_bytes] raises [InvalidMagic] exactly when
    the first two bytes are not the magic; otherwise [InvalidVersion]
    exactly when the third byte is not the version; otherwise
    [InvalidChecksum] exactly when the last two bytes are not the checksum
    of the 30 before them; otherwise it returns a header. *)
Theorem from_bytes_checks_in_order (v : bytes) :
  length v = 32%nat ->
  (from_bytes v = Raise InvalidMagic <-> take 2 v ≠ Header_magic)
  /\ (take 2 v = Header_magic ->
      (from_bytes v = Raise InvalidVersion
       <-> v !! 2%nat ≠ Some Header_version)
      /\ (v !! 2%nat = Some Header_version ->
          (from_bytes v = Raise InvalidChecksum
           <-> drop 30 v ≠ crc16_ccitt (take 30 v))
          /\ (drop 30 v = crc16_ccitt (take 30 v) ->
              exists h, from_bytes v = Ok h))).
Proof.
  intros Hlen. rewrite (from_bytes_32_cases v Hlen).
  destruct (decide (take 2 v ≠ Header_magic)) as [Hm|Hm].
  { split; [done|]. intros E. by destruct Hm. }
  split; [split; [|done] |].
  { repeat case_decide; done. }
  intros _.
  destruct (decide (v !! 2%nat ≠ Some Header_version)) as [Hv|Hv].
  { split; [done|]. intros E. by destruct Hv. }
  split; [split; [|done] |].
  { case_decide; done. }
  intros _.
  destruct (decide (crc16_ccitt (take 30 v) ≠ drop 30 v)) as [Hc|Hc].
  { split; [split; [intros _ E; by destruct Hc | done] |].
    intros E. by destruct Hc. }
  split; [split; [done | intros E; destruct E] | eauto].
  destruct (decide (crc16_ccitt (take 30 v) = drop 30 v)); [done|contradiction].
Qed.

(** ** The layout of an encoded header *)

Lemma struct_pack_Ok m ver u ts pg len c hc dat :
  struct_pack m ver u ts pg len c hc = Ok dat ->
  dat = (pack_s 2 m ++ le_bytes 1 ver ++ pack_s 16 u ++ [0; 0]
           ++ le_bytes 4 ts ++ le_bytes 1 pg ++ le_bytes 2 len ++ pack_s 2 c)
          ++ pack_s 2 hc.
Proof.
  unfold struct_pack, rbind.
  destruct (pack_uint 1 ver) as [vb|] eqn:Hv; [|done].
  destruct (pack_uint 4 ts) as [tb|] eqn:Ht; [|done].
  destruct (pack_uint 1 pg) as [pb|] eqn:Hp; [|done].
  destruct (pack_uint 2 len) as [lb|] eqn:Hl; [|done].
  apply pack_uint_Ok in Hv as [_ ->], Ht as [_ ->], Hp as [_ ->], Hl as [_ ->].
  intros H. injection H as <-. by rewrite <- !app_assoc.
Qed.

Lemma struct_pack_in_range m ver u ts pg len c hc :
  0 <= ver < 256 -> 0 <= ts < 2 ^ 32 -> 0 <= pg < 256 -> 0 <= len < 2 ^ 16 ->
  exists dat, struct_pack m ver u ts pg len c hc = Ok dat.
Proof.
  intros Hv Ht Hp Hl. unfold struct_pack, pack_uint.
  rewrite !decide_True by (simpl; lia). cbn [rbind]. eauto.
Qed.

Lemma header_layout (m U P T L C X : bytes) (v g : Z) :
  length m = 2%nat -> length U = 16%nat -> length P = 2%nat ->
  length T = 4%nat -> length L = 2%nat -> length C = 2%nat ->
  length X = 2%nat ->
  let b := (m ++ [v] ++ U ++ P ++ T ++ [g] ++ L ++ C) ++ X in
  length b = 32%nat
  /\ take 2 b = m /\ b !! 2%nat = Some v
  /\ take 30 b = m ++ [v] ++ U ++ P ++ T ++ [g] ++ L ++ C
  /\ drop 30 b = X
  /\ slice 0 2 b = m /\ slice 2 3 b = [v] /\ slice 3 19 b = U
  /\ slice 21 25 b = T /\ slice 25 26 b = [g] /\ slice 26 28 b = L
  /\ slice 28 30 b = C.
Proof.
  intros Hm HU HP HT HL HC HX.
  do 3 (destruct m as [|? m]; try discriminate).
  do 17 (destruct U as [|? U]; try discriminate).
  do 3 (destruct P as [|? P]; try discriminate).
  do 5 (destruct T as [|? T]; try discriminate).
  do 3 (destruct L as [|? L]; try discriminate).
  do 3 (destruct C as [|? C]; try discriminate).
  do 3 (destruct X as [|? X]; try discriminate).
  cbv zeta. repeat split; reflexivity.
Qed.

(** ** C5: the header checksum *)

(** C5, as stated, fails: for the fresh header below the two bytes that end
    the encoding are [193; 129], while the checksum of the whole 32-byte
    buffer packed with the placeholder is [178; 41]. *)
Lemma header_checksum_not_over_placeholder :
  let h := Header_new (mkUUID 7) 1700000000 in
  exists dat b,
    struct_pack (magic h) (version h) (UUID_bytes (uid h)) (timestamp h)
      (data_page h) (data_length h) (data_checksum h) NULL_CRC16 = Ok dat
    /\ to_bytes h = Ok b
    /\ last2 b = [193; 129]
    /\ crc16_ccitt dat = [178; 41]
    /\ last2 b <> crc16_ccitt dat.
Proof.
  cbv zeta. eexists _, _. split; [vm_compute; reflexivity|].
  split; [vm_compute; reflexivity|]. 
  split; [vm_compute; reflexivity|]. 
  split; [vm_compute; reflexivity|]. 
  vm_compute. discriminate.
Qed.

(** C5, amended.  The last two bytes of [to_bytes h] are the checksum of
    the first 30 bytes of the buffer packed with the placeholder
    [NULL_CRC16] in the checksum field, the placeholder itself left out of
    the computation; they replace the placeholder, and they are the
    checksum of all bytes of the encoding that precede them, which is what
    [from_bytes] recomputes. *)
Theorem header_checksum_two_pass (h : Header) (b : bytes) :
  to_bytes h = Ok b ->
  exists dat,
    struct_pack (magic h) (version h) (UUID_bytes (uid h)) (timestamp h)
      (data_page h) (data_length h) (data_checksum h) NULL_CRC16 = Ok dat
    /\ length dat = 32%nat
    /\ last2 dat = NULL_CRC16
    /\ length b = 32%nat
    /\ but_last2 b = but_last2 dat
    /\ last2 b = crc16_ccitt (but_last2 dat)
    /\ last2 b = crc16_ccitt (but_last2 b).
Proof.
  unfold to_bytes, rbind.
  destruct (struct_pack _ _ _ _ _ _ _ _) as [dat|] eqn:Hp; [|done].
  intros [= <-]. exists dat.
  pose proof (struct_pack_length _ _ _ _ _ _ _ _ _ Hp) as Hlen.
  pose proof (struct_pack_Ok _ _ _ _ _ _ _ _ _ Hp) as Hdat.
  assert (length (but_last2 dat) = 30%nat) as Hpre.
  { unfold but_last2. rewrite length_take, Hlen. reflexivity. }
  repeat split; try done.
  - rewrite Hdat. by rewrite last2_app.
  - rewrite length_app, Hpre. reflexivity.
  - by rewrite but_last2_app.
  - by rewrite last2_app.
  - by rewrite last2_app, but_last2_app.
Qed.

Lemma header_checksum_two_pass_witness :
  let h := Header_new (mkUUID 7) 1700000000 in
  exists b, to_bytes h = Ok b /\ last2 b = crc16_ccitt (but_last2 b).
Proof.
  cbv zeta. eexists. split; [vm_compute; reflexivity|].
  destruct (header_checksum_two_pass
              (Header_new (mkUUID 7) 1700000000) _ eq_refl)
    as (dat & _ & _ & _ & _ & _ & _ & H).
  exact H.
Defined.

(** ** C2: decoding an encoded header *)

Lemma Header_new_wf fresh_uid now :
  UUID_valid fresh_uid -> 0 <= now < 2 ^ 32 ->
  Header_wf (Header_new fresh_uid now).
Proof.
  intros Hu Hn. unfold Header_wf, UUID_valid in *; cbn.
  repeat split; done || lia.
Qed.

Lemma update_wf h now d :
  Header_wf h -> 0 <= now < 2 ^ 32 -> Z.of_nat (length d) < 2 ^ 16 ->
  Header_wf (update h now d).
Proof.
  intros (Hm & Hv & Hu & Ht & Hp & Hl & Hc) Hn Hd.
  unfold Header_wf, UUID_valid in *; cbn. repeat split; done || lia.
Qed.

Lemma produced_wf h : produced h -> Header_wf h.
Proof.
  induction 1; [by apply Header_new_wf | by apply update_wf].
Qed.

Lemma to_bytes_wf h :
  Header_wf h ->
  to_bytes h =
    Ok ((Header_magic ++ [Header_version] ++ UUID_bytes (uid h) ++ [0; 0]
           ++ le_bytes 4 (timestamp h) ++ [data_page h]
           ++ le_bytes 2 (data_length h) ++ data_checksum h)
        ++ crc16_ccitt
             (Header_magic ++ [Header_version] ++ UUID_bytes (uid h) ++ [0; 0]
                ++ le_bytes 4 (timestamp h) ++ [data_page h]
                ++ le_bytes 2 (data_length h) ++ data_checksum h)).
Proof.
  intros (Hm & Hv & Hu & Ht & Hp & Hl & Hc).
  destruct (struct_pack_in_range (magic h) (version h) (UUID_bytes (uid h))
              (timestamp h) (data_page h) (data_length h) (data_checksum h)
              NULL_CRC16) as [dat Hdat]; try done.
  { rewrite Hv. unfold Header_version. lia. }
  unfold to_bytes. rewrite Hdat. cbn [rbind].
  apply struct_pack_Ok in Hdat. rewrite Hdat.
  rewrite but_last2_app by apply length_pack_s.
  rewrite Hm, Hv.
  rewrite (pack_s_exact 2 Header_magic) by done.
  rewrite (pack_s_exact 16) by apply length_be_bytes.
  rewrite (pack_s_exact 2 (data_checksum h)) by done.
  change (le_bytes 1 Header_version) with [Header_version].
  replace (le_bytes 1 (data_page h)) with [data_page h]; [done|].
  cbn [le_bytes]. by rewrite Z.mod_small.
Qed.

Lemma from_bytes_to_bytes_wf h :
  Header_wf h -> rbind (to_bytes h) from_bytes = Ok h.
Proof.
  intros Hwf. rewrite (to_bytes_wf h Hwf). cbn [rbind].
  destruct Hwf as (Hm & Hv & Hu & Ht & Hp & Hl & Hc).
  set (pre := Header_magic ++ _).
  destruct (header_layout Header_magic (UUID_bytes (uid h)) [0; 0]
              (le_bytes 4 (timestamp h)) (le_bytes 2 (data_length h))
              (data_checksum h) (crc16_ccitt pre)
              Header_version (data_page h))
    as (Hlen & H2 & Hv2 & H30 & Hd30 & S1 & S2 & S3 & S4 & S5 & S6 & S7);
    try done; try apply length_le_bytes; try apply length_be_bytes.
  fold pre in Hlen, H2, Hv2, H30, Hd30, S1, S2, S3, S4, S5, S6, S7.
  rewrite from_bytes_32_cases by done.
  rewrite decide_False by (by rewrite H2; intros X; apply X).
  rewrite decide_False by (by rewrite Hv2; intros X; apply X).
  rewrite decide_False by (by rewrite H30, Hd30; intros X; apply X).
  rewrite S1, S2, S3, S4, S5, S6, S7.
  unfold UUID_bytes. rewrite be_int_be_bytes by apply Hu.
  rewrite !le_int_le_bytes by done.
  destruct h as [m v [u] t p l c]; cbn in *. subst m v.
  f_equal. f_equal; cbn; lia.
Qed.

(** C2, as stated, fails: [Header()] made when the clock reads 2^32 (in
    2106) cannot be packed, since the timestamp field has four bytes;
    [to_bytes] raises [struct.error], so nothing is decoded back. *)
Lemma roundtrip_fails_past_32_bit_clock :
  let h := Header_new (mkUUID 7) (2 ^ 32) in
  to_bytes h = Raise StructError
  /\ rbind (to_bytes h) from_bytes <> Ok h.
Proof. cbv zeta. split; [reflexivity | discriminate]. Qed.

(** C2, amended.  For every header made by [Header()] or by [update], at
    clock readings that fit the 32-bit timestamp field and on payloads
    whose length fits 16 bits, encoding succeeds and decoding the encoding
    gives back an equal header. *)
Theorem from_bytes_to_bytes_produced (h : Header) :
  produced h -> rbind (to_bytes h) from_bytes = Ok h.
Proof. intros Hp. apply from_bytes_to_bytes_wf. by apply produced_wf. Qed.

Lemma from_bytes_to_bytes_produced_witness :
  let h := update (Header_new (mkUUID 7) 1700000000) 1700000001 [128] in
  produced h /\ rbind (to_bytes h) from_bytes = Ok h.
Proof.
  cbv zeta.
  assert (produced (update (Header_new (mkUUID 7) 1700000000) 1700000001 [128]))
    as Hp.
  { apply produced_update; [apply produced_new| |]; unfold UUID_valid; simpl; lia. }
  split; [exact Hp | exact (from_bytes_to_bytes_produced _ Hp)].
Defined.

(** ** The checksum tells single changed bytes apart *)

Lemma below_forallb (n : nat) (p : Z -> bool) :
  forallb p (below n) = true ->
  forall z, 0 <= z < Z.of_nat n -> p z = true.
Proof.
  intros H z Hz. rewrite forallb_forall in H. apply H.
  unfold below. apply in_map_iff. exists (Z.to_nat z).
  split; [lia|]. apply in_seq. lia.
Qed.

Lemma below_forallb2 (n m : nat) (p : Z -> Z -> bool) :
  forallb (fun a => forallb (p a) (below m)) (below n) = true ->
  forall a b, 0 <= a < Z.of_nat n -> 0 <= b < Z.of_nat m -> p a b = true.
Proof.
  intros H a b Ha Hb.
  pose proof (below_forallb n _ H a Ha) as H1. cbv beta in H1.
  exact (below_forallb m _ H1 b Hb).
Qed.

Lemma mix_check_all y h :
  0 <= y < 256 -> 0 <= h < 256 -> mix_check y h = true.
Proof.
  apply (below_forallb2 256 256 mix_check). vm_compute. reflexivity.
Qed.

Lemma nibble_check_all x : 0 <= x < 256 -> nibble_check x = true.
Proof. apply (below_forallb 256 nibble_check). vm_compute. reflexivity. Qed.

Lemma lxor_check_all a b :
  0 <= a < 256 -> 0 <= b < 256 -> lxor_check a b = true.
Proof.
  apply (below_forallb2 256 256 lxor_check). vm_compute. reflexivity.
Qed.

Lemma flip_check_all k x :
  0 <= k < 8 -> 0 <= x < 256 -> flip_check k x = true.
Proof. apply (below_forallb2 8 256 flip_check). vm_compute. reflexivity. Qed.

Lemma lxor_byte a b : is_byte a -> is_byte b -> is_byte (Z.lxor a b).
Proof.
  intros Ha Hb. pose proof (lxor_check_all a b Ha Hb) as H.
  unfold lxor_check in H. unfold is_byte. lia.
Qed.

Lemma lxor_cancel_l a b b' : Z.lxor a b = Z.lxor a b' -> b = b'.
Proof.
  intros H. apply (f_equal (Z.lxor a)) in H.
  by rewrite <- !Z.lxor_assoc, Z.lxor_nilpotent, !Z.lxor_0_l in H.
Qed.

Lemma fold_nibble_byte x : is_byte x -> is_byte (crc16_fold_nibble x).
Proof.
  intros Hx. pose proof (nibble_check_all x Hx) as H.
  unfold nibble_check in H. unfold is_byte. lia.
Qed.

Lemma fold_nibble_inj x x' :
  is_byte x -> is_byte x' ->
  crc16_fold_nibble x = crc16_fold_nibble x' -> x = x'.
Proof.
  intros Hx Hx' E.
  pose proof (nibble_check_all x Hx) as H.
  pose proof (nibble_check_all x' Hx') as H'.
  unfold nibble_check in H, H'. rewrite E in H. lia.
Qed.

Lemma mix_range y h :
  is_byte y -> is_byte h -> 0 <= crc16_mix y h < 65536.
Proof.
  intros Hy Hh. pose proof (mix_check_all y h Hy Hh) as H.
  unfold mix_check in H. lia.
Qed.

Lemma mix_inj y h y' h' :
  is_byte y -> is_byte h -> is_byte y' -> is_byte h' ->
  crc16_mix y h = crc16_mix y' h' -> y = y' /\ h = h'.
Proof.
  intros Hy Hh Hy' Hh' E.
  pose proof (mix_check_all y h Hy Hh) as H.
  pose proof (mix_check_all y' h' Hy' Hh') as H'.
  unfold mix_check in H, H'. rewrite E in H. lia.
Qed.

Lemma crc16_step_mix crc data :
  crc16_step crc data
  = crc16_mix (crc16_fold_nibble (Z.lxor data (Z.land crc 255)))
      (Z.shiftr crc 8).
Proof. reflexivity. Qed.

Lemma land_255 c : Z.land c 255 = c mod 256.
Proof. change 255 with (Z.ones 8). by rewrite Z.land_ones. Qed.

Lemma shiftr_8 c : Z.shiftr c 8 = c / 256.
Proof. by rewrite Z.shiftr_div_pow2. Qed.

Lemma crc_low_byte c : is_byte (Z.land c 255).
Proof. rewrite land_255. unfold is_byte. apply Z.mod_pos_bound. lia. Qed.

Lemma crc_high_byte c : 0 <= c < 65536 -> is_byte (Z.shiftr c 8).
Proof.
  intros Hc. rewrite shiftr_8. unfold is_byte.
  split; [apply Z.div_pos; lia | apply Z.div_lt_upper_bound; lia].
Qed.

Lemma crc16_step_range crc data :
  0 <= crc < 65536 -> is_byte data -> 0 <= crc16_step crc data < 65536.
Proof.
  intros Hc Hd. rewrite crc16_step_mix. apply mix_range.
  - apply fold_nibble_byte, lxor_byte; [done | apply crc_low_byte].
  - by apply crc_high_byte.
Qed.

Lemma crc16_step_inj_data crc d d' :
  0 <= crc < 65536 -> is_byte d -> is_byte d' ->
  crc16_step crc d = crc16_step crc d' -> d = d'.
Proof.
  intros Hc Hd Hd'. rewrite !crc16_step_mix. intros E.
  apply mix_inj in E as [E _];
    try (apply fold_nibble_byte, lxor_byte; [done | apply crc_low_byte]);
    try by apply crc_high_byte.
  apply fold_nibble_inj in E;
    try (apply lxor_byte; [done | apply crc_low_byte]).
  rewrite !(Z.lxor_comm _ (Z.land crc 255)) in E.
  by apply lxor_cancel_l in E.
Qed.

Lemma crc16_step_inj_crc c c' d :
  0 <= c < 65536 -> 0 <= c' < 65536 -> is_byte d ->
  crc16_step c d = crc16_step c' d -> c = c'.
Proof.
  intros Hc Hc' Hd. rewrite !crc16_step_mix. intros E.
  apply mix_inj in E as [E1 E2];
    try (apply fold_nibble_byte, lxor_byte; [done | apply crc_low_byte]);
    try by apply crc_high_byte.
  apply fold_nibble_inj in E1;
    try (apply lxor_byte; [done | apply crc_low_byte]).
  apply lxor_cancel_l in E1.
  rewrite !land_255 in E1. rewrite !shiftr_8 in E2.
  pose proof (Z.div_mod c 256). pose proof (Z.div_mod c' 256). lia.
Qed.

Lemma crc16_fold_range v c :
  is_bytes v -> 0 <= c < 65536 -> 0 <= fold_left crc16_step v c < 65536.
Proof.
  intros Hv. revert c. induction Hv as [|x v Hx Hv IH]; intros c Hc.
  - done.
  - cbn [fold_left]. apply IH. by apply crc16_step_range.
Qed.

Lemma crc16_fold_inj v c c' :
  is_bytes v -> 0 <= c < 65536 -> 0 <= c' < 65536 ->
  fold_left crc16_step v c = fold_left crc16_step v c' -> c = c'.
Proof.
  intros Hv. revert c c'.
  induction Hv as [|x v Hx Hv IH]; intros c c' Hc Hc' E.
  - done.
  - cbn [fold_left] in E. apply IH in E; try by apply crc16_step_range.
    by apply crc16_step_inj_crc in E.
Qed.

Lemma crc16_ccitt_state_inj c c' :
  0 <= c < 65536 -> 0 <= c' < 65536 ->
  [Z.shiftr c 8; Z.land c 255] = [Z.shiftr c' 8; Z.land c' 255] -> c = c'.
Proof.
  intros Hc Hc' [= E1 E2]. rewrite !shiftr_8 in E1. rewrite !land_255 in E2.
  pose proof (Z.div_mod c 256). pose proof (Z.div_mod c' 256). lia.
Qed.

(** Two byte strings that differ in exactly one byte have different
    checksums. *)
Lemma crc16_ccitt_one_byte (pre suf : bytes) (x x' : Z) :
  is_bytes pre -> is_bytes suf -> is_byte x -> is_byte x' -> x <> x' ->
  crc16_ccitt (pre ++ x :: suf) <> crc16_ccitt (pre ++ x' :: suf).
Proof.
  intros Hpre Hsuf Hx Hx' Hne E. unfold crc16_ccitt, crc16_state in E.
  rewrite !fold_left_app in E. cbn [fold_left] in E.
  assert (0 <= fold_left crc16_step pre 65535 < 65536) as Hs
    by (apply crc16_fold_range; [done | lia]).
  pose proof (crc16_step_range _ x Hs Hx) as H1.
  pose proof (crc16_step_range _ x' Hs Hx') as H1'.
  apply crc16_ccitt_state_inj in E; [|by apply crc16_fold_range..].
  apply crc16_fold_inj in E; [|done..].
  by apply crc16_step_inj_data in E.
Qed.

(** ** C7: single-bit flips of a valid header *)

Lemma flipped_byte k x :
  0 <= k < 8 -> is_byte x ->
  is_byte (Z.lxor x (Z.shiftl 1 k)) /\ Z.lxor x (Z.shiftl 1 k) <> x.
Proof.
  intros Hk Hx. pose proof (flip_check_all k x Hk Hx) as H.
  unfold flip_check in H. unfold is_byte. split; [lia|].
  intros E. rewrite E, Z.eqb_refl in H. cbn in H. lia.
Qed.

Lemma from_bytes_Ok_inv v h :
  length v = 32%nat -> from_bytes v = Ok h ->
  take 2 v = Header_magic /\ v !! 2%nat = Some Header_version
  /\ crc16_ccitt (take 30 v) = drop 30 v.
Proof.
  intros Hlen. rewrite from_bytes_32_cases by done.
  destruct (decide (take 2 v ≠ Header_magic)) as [|Hm]; [done|].
  destruct (decide (v !! 2%nat ≠ Some Header_version)) as [|Hv]; [done|].
  destruct (decide (crc16_ccitt (take 30 v) ≠ drop 30 v)) as [|Hc]; [done|].
  intros _. repeat split.
  - by destruct (decide (take 2 v = Header_magic)).
  - by destruct (decide (v !! 2%nat = Some Header_version)).
  - by destruct (decide (crc16_ccitt (take 30 v) = drop 30 v)).
Qed.

Lemma alter_changes (f : Z -> Z) (v : bytes) i x :
  v !! i = Some x -> f x <> x -> alter f i v <> v.
Proof.
  intros Hx Hf E. apply (f_equal (fun l => l !! i)) in E.
  rewrite list_lookup_alter_eq, Hx in E. cbn in E. congruence.
Qed.

Lemma is_bytes_take n v : is_bytes v -> is_bytes (take n v).
Proof. apply Forall_take. Qed.

Lemma is_bytes_drop n v : is_bytes v -> is_bytes (drop n v).
Proof. apply Forall_drop. Qed.

Lemma is_bytes_lookup v i x : is_bytes v -> v !! i = Some x -> is_byte x.
Proof. intros Hv Hx. by eapply Forall_lookup_1. Qed.

(** C7. Flipping any one bit of a 32-byte encoding that decodes makes
    [from_bytes] fail: with [InvalidMagic] when the bit is in the two magic
    bytes, with [InvalidVersion] when it is in the version byte, and with
    [InvalidChecksum] when it is anywhere else, the checksum bytes
    included. *)
Theorem single_bit_flip_rejected (b : bytes) (h : Header) (i : nat) (k : Z) :
  length b = 32%nat -> is_bytes b -> from_bytes b = Ok h ->
  (i < 32)%nat -> 0 <= k < 8 ->
  from_bytes (flip_bit i k b)
  = Raise (if decide (i < 2)%nat then InvalidMagic
           else if decide (i = 2%nat) then InvalidVersion
           else InvalidChecksum).
Proof.
  intros Hlen Hb Hok Hi Hk.
  destruct (from_bytes_Ok_inv b h Hlen Hok) as (Hm & Hv & Hc).
  destruct (lookup_lt_is_Some_2 b i) as [x Hx]; [lia|].
  pose proof (is_bytes_lookup _ _ _ Hb Hx) as Hxb.
  destruct (flipped_byte k x Hk Hxb) as [Hfb Hfne].
  unfold flip_bit. set (f := fun b0 : Z => Z.lxor b0 (Z.shiftl 1 k)) in *.
  rewrite from_bytes_32_cases by (by rewrite length_alter).
  destruct (decide (i < 2)%nat) as [Hi2|Hi2].
  { rewrite decide_True; [done|].
    rewrite take_alter_lt by done. rewrite <- Hm.
    apply (alter_changes f _ i x); [|done].
    by rewrite lookup_take_lt. }
  rewrite take_alter_ge by lia.
  rewrite decide_False by (intros X; by apply X).
  destruct (decide (i = 2%nat)) as [->|Hi3].
  { rewrite decide_True; [done|].
    rewrite list_lookup_alter_eq, Hx. cbn. rewrite Hx in Hv.
    injection Hv as Hv. intros [= E]. apply Hfne.
    exact (eq_trans E (eq_sym Hv)). }
  rewrite list_lookup_alter_ne by done.
  rewrite decide_False by (intros X; by apply X).
  rewrite decide_True; [done|].
  destruct (decide (i < 30)%nat) as [Hi30|Hi30].
  - rewrite take_alter_lt, drop_alter_lt by done. rewrite <- Hc.
    assert (take 30 b !! i = Some x) as Hx30 by (by rewrite lookup_take_lt).
    rewrite <- (take_drop_middle _ _ _ Hx30).
    assert (length (take i (take 30 b)) = i) as Hti.
    { rewrite length_take, length_take. lia. }
    replace (alter f i (take i (take 30 b) ++ x :: drop (S i) (take 30 b)))
      with (take i (take 30 b) ++ f x :: drop (S i) (take 30 b)).
    2:{ rewrite <- (Nat.add_0_r i) at 3. rewrite <- Hti at 3.
        by rewrite alter_app_r. }
    intros E. symmetry in E. revert E.
    apply crc16_ccitt_one_byte; try done.
    + by apply is_bytes_take, is_bytes_take.
    + by apply is_bytes_drop, is_bytes_take.
  - rewrite take_alter_ge by lia. rewrite Hc.
    rewrite drop_alter_ge by lia.
    intros E. symmetry in E. revert E.
    apply (alter_changes f _ (i - 30) x); [|done].
    rewrite lookup_drop. rewrite <- Hx. f_equal. lia.
Qed.

Lemma single_bit_flip_rejected_witness :
  let b := [192; 192; 1; 0; 0; 0; 0; 0; 0; 0; 0; 0; 0; 0; 0; 0; 0; 0; 7; 0;
            0; 1; 241; 83; 101; 0; 12; 0; 250; 4; 44; 172] in
  from_bytes (flip_bit 22 3 b) = Raise InvalidChecksum.
Proof.
  cbv zeta.
  refine (single_bit_flip_rejected _
            (mkHeader [192; 192] 1 (mkUUID 7) 1700000001 0 12 [250; 4])
            22 3 _ _ _ _ _).
  - reflexivity.
  - repeat constructor; unfold is_byte; lia.
  - vm_compute. reflexivity.
  - lia.
  - lia.
Defined.

(** ** The controller: [save] *)

Section ControllerFacts.
Context {D : Type} `{!Memory D} `{!PayloadCodec}.

(** What [save] does, case by case. *)
Lemma save_cases (now : Z) (s : Sys D) :
  save now s =
    match dumps (config (self s)) with
    | Raise e => (Raise e, s)
    | Ok p =>
      match header (self s) with
      | None => (Raise AttributeError, s)
      | Some h =>
        let nh := update h now p in
        let t1 := trace s ++ [EvWrite (get_data_address nh) p] in
        match write (device s) (get_data_address nh) p with
        | (Raise e, d1) => (Raise e, mkSys (self s) d1 t1)
        | (Ok _, d1) =>
          match to_bytes nh with
          | Raise e => (Raise e, mkSys (self s) d1 t1)
          | Ok hb =>
            match write d1 0 hb with
            | (Raise e, d2) =>
              (Raise e, mkSys (self s) d2 (t1 ++ [EvWrite 0 hb]))
            | (Ok _, d2) =>
              (Ok tt,
               mkSys (set_last_config (config (self s))
                        (set_header (Some nh) (self s)))
                 d2 (t1 ++ [EvWrite 0 hb]))
            end
          end
        end
      end
    end.
Proof.
  unfold save, bind, get_self, lift. cbn.
  destruct (dumps (config (self s))) as [p|e]; [|done].
  destruct (header (self s)) as [h|]; [|done].
  unfold memory_write, bind, emit, modify, get_self. cbn.
  destruct (write (device s) _ p) as [[[]|e] d1]; [|done].
  destruct (to_bytes _) as [hb|e]; [|done]. cbn.
  destruct (write d1 0 hb) as [[[]|e] d2]; done.
Qed.

(** A successful [save]: both writes were made and accepted, in order,
    and the object changed in [header] and [_last_config] only. *)
Lemma save_Ok_inv (now : Z) (s s' : Sys D) :
  save now s = (Ok tt, s') ->
  exists p h hb d1,
    dumps (config (self s)) = Ok p /\ header (self s) = Some h
    /\ to_bytes (update h now p) = Ok hb
    /\ write (device s) (get_data_address (update h now p)) p = (Ok tt, d1)
    /\ write d1 0 hb = (Ok tt, device s')
    /\ trace s'
       = trace s ++ [EvWrite (get_data_address (update h now p)) p;
                     EvWrite 0 hb]
    /\ self s' = set_last_config (config (self s))
                   (set_header (Some (update h now p)) (self s)).
Proof.
  rewrite save_cases.
  destruct (dumps (config (self s))) as [p|e]; [|done].
  destruct (header (self s)) as [h|]; [|done]. cbv zeta.
  destruct (write (device s) _ p) as [[[]|e] d1] eqn:Hw1; [|done].
  destruct (to_bytes _) as [hb|e] eqn:Hb; [|done].
  destruct (write d1 0 hb) as [[[]|e] d2] eqn:Hw2; [|done].
  intros [= <-]. exists p, h, hb, d1. cbn.
  repeat split; try done. by rewrite <- app_assoc.
Qed.

(** A failing [save] leaves the object as it was. *)
Lemma save_Raise_inv (now : Z) (s s' : Sys D) (e : exn) :
  save now s = (Raise e, s') -> self s' = self s.
Proof.
  rewrite save_cases.
  destruct (dumps (config (self s))) as [p|e0]; [|by intros [= _ <-]].
  destruct (header (self s)) as [h|]; [|by intros [= _ <-]]. cbv zeta.
  destruct (write (device s) _ p) as [[[]|e1] d1]; [|by intros [= _ <-]].
  destruct (to_bytes _) as [hb|e2]; [|by intros [= _ <-]].
  destruct (write d1 0 hb) as [[[]|e3] d2]; [done | by intros [= _ <-]].
Qed.

(** The device accesses of one [save], in order: nothing, or the payload
    write alone, or the payload write and then the header write. *)
Lemma save_trace (now : Z) (s : Sys D) :
  exists evs,
    trace (snd (save now s)) = trace s ++ evs
    /\ (evs = []
        \/ exists p h,
             dumps (config (self s)) = Ok p /\ header (self s) = Some h
             /\ (evs = [EvWrite (get_data_address (update h now p)) p]
                 \/ exists hb d1,
                      to_bytes (update h now p) = Ok hb
                      /\ write (device s)
                           (get_data_address (update h now p)) p
                         = (Ok tt, d1)
                      /\ evs = [EvWrite (get_data_address (update h now p)) p;
                                EvWrite 0 hb])).
Proof.
  rewrite save_cases.
  destruct (dumps (config (self s))) as [p|e0].
  2:{ exists []. split; [by rewrite app_nil_r | by left]. }
  destruct (header (self s)) as [h|].
  2:{ exists []. split; [by rewrite app_nil_r | by left]. }
  cbv zeta.
  destruct (write (device s) _ p) as [[[]|e1] d1] eqn:Hw1.
  2:{ eexists. split; [done|]. right. exists p, h. eauto. }
  destruct (to_bytes _) as [hb|e2] eqn:Hb.
  2:{ eexists. split; [done|]. right. exists p, h. eauto. }
  exists [EvWrite (get_data_address (update h now p)) p; EvWrite 0 hb].
  split.
  - destruct (write d1 0 hb) as [[[]|e3] d2]; cbn; by rewrite <- app_assoc.
  - right. exists p, h. repeat split; try done. right. exists hb, d1. done.
Qed.

(** C3. In every run of [save] the payload write comes first and the
    header write, when there is one, follows an accepted payload write;
    when [save] returns, both writes were accepted in that order and only
    then [header] became the new header and [_last_config] a copy of
    [config]; when [save] raises, the object is as it was. *)
Theorem save_payload_then_header_then_commit (now : Z) (s : Sys D) :
  (exists evs,
     trace (snd (save now s)) = trace s ++ evs
     /\ (evs = []
         \/ exists p h,
              dumps (config (self s)) = Ok p /\ header (self s) = Some h
              /\ (evs = [EvWrite (get_data_address (update h now p)) p]
                  \/ exists hb d1,
                       to_bytes (update h now p) = Ok hb
                       /\ write (device s)
                            (get_data_address (update h now p)) p
                          = (Ok tt, d1)
                       /\ evs = [EvWrite (get_data_address (update h now p)) p;
                                 EvWrite 0 hb])))
  /\ (forall s', save now s = (Ok tt, s') ->
      exists p h hb d1,
        dumps (config (self s)) = Ok p /\ header (self s) = Some h
        /\ to_bytes (update h now p) = Ok hb
        /\ write (device s) (get_data_address (update h now p)) p
           = (Ok tt, d1)
        /\ write d1 0 hb = (Ok tt, device s')
        /\ trace s'
           = trace s ++ [EvWrite (get_data_address (update h now p)) p;
                         EvWrite 0 hb]
        /\ header (self s') = Some (update h now p)
        /\ _last_config (self s') = config (self s)
        /\ config (self s') = config (self s))
  /\ (forall e s', save now s = (Raise e, s') ->
      header (self s') = header (self s)
      /\ _last_config (self s') = _last_config (self s)
      /\ self s' = self s).
Proof.
  split; [apply save_trace|]. split.
  - intros s' Hs.
    destruct (save_Ok_inv now s s' Hs)
      as (p & h & hb & d1 & Hd & Hh & Hb & Hw1 & Hw2 & Ht & Hself).
    exists p, h, hb, d1. rewrite Hself. by repeat split.
  - intros e s' Hs. rewrite (save_Raise_inv now s s' e Hs). done.
Qed.

(** ** The controller: [_attached] *)

Lemma attached_header_error fresh_uid name t_new t_save (s : Sys D) hd e :
  read (device s) 0 (Z.of_nat Header_size) = Ok hd ->
  from_bytes hd = Raise e -> is_HeaderError e = true ->
  _attached fresh_uid name t_new t_save s
  = bind (save t_save) (fun _ => attached_epilogue)
      (mkSys
         {| connected := true;
            header := Some (Header_new fresh_uid t_new);
            config := Some {[ "name"%string := PyStr name ]};
            _last_header := Some (Header_new fresh_uid t_new);
            _last_config := _last_config (self s) |}
         (device s) (trace s ++ [EvRead 0 (Z.of_nat Header_size)])).
Proof.
  intros Hr Hf He.
  unfold _attached, bind at 1, try, memory_read, bind at 1, emit. cbn.
  rewrite Hr. unfold bind at 1, modify at 1. cbn. rewrite Hf, He.
  unfold bind at 1 2 3 4. reflexivity.
Qed.

Lemma epilogue_named (s : Sys D) (c : Config) (v : PyValue) :
  config (self s) = Some c -> c !! "name"%string = Some v ->
  attached_epilogue s
  = (Ok tt,
     mkSys (self s) (device s)
       (trace s ++ [EvTimer true; EvRespond (inl v);
                    EvReady (connected (self s)) (Some c)])).
Proof.
  intros Hc Hn. unfold attached_epilogue, bind, emit, get_self,
    attached_label. cbn. rewrite Hc, Hn. cbn. rewrite Hc.
  by rewrite <- !app_assoc.
Qed.

Lemma epilogue_unnamed (s : Sys D) (c : Config) (h : Header) :
  config (self s) = Some c -> c !! "name"%string = None ->
  header (self s) = Some h ->
  attached_epilogue s
  = (Ok tt,
     mkSys (self s) (device s)
       (trace s ++ [EvTimer true; EvRespond (inr (uid h));
                    EvReady (connected (self s)) (Some c)])).
Proof.
  intros Hc Hn Hh. unfold attached_epilogue, bind, emit, get_self,
    attached_label. cbn. rewrite Hc, Hn, Hh. cbn. rewrite Hc.
  by rewrite <- !app_assoc.
Qed.

(** C4, amended.  When the header bytes were read and decoding them
    fails with a header-format error, [_attached] does not raise that
    error: it makes [Header()] (the fresh identifier, length zero, and as
    data checksum the constant [NULL_CRC16 = ff ff]) the current and the
    last header, makes the record [{"name": generate_name()}], and runs
    [save] at once; what [save] raises is raised, and when [save] returns
    the attach step completes with that record. *)
Theorem attached_header_error_initializes
    fresh_uid name t_new t_save (s : Sys D) hd e :
  read (device s) 0 (Z.of_nat Header_size) = Ok hd ->
  from_bytes hd = Raise e -> is_HeaderError e = true ->
  let fresh := Header_new fresh_uid t_new in
  let record : Config := {[ "name"%string := PyStr name ]} in
  let s1 := mkSys
              {| connected := true; header := Some fresh;
                 config := Some record; _last_header := Some fresh;
                 _last_config := _last_config (self s) |}
              (device s) (trace s ++ [EvRead 0 (Z.of_nat Header_size)]) in
  uid fresh = fresh_uid /\ data_length fresh = 0
  /\ data_checksum fresh = NULL_CRC16
  /\ (forall e' s2, save t_save s1 = (Raise e', s2) ->
      _attached fresh_uid name t_new t_save s = (Raise e', s2))
  /\ (forall s2, save t_save s1 = (Ok tt, s2) ->
      _attached fresh_uid name t_new t_save s
      = (Ok tt,
         mkSys (self s2) (device s2)
           (trace s2 ++ [EvTimer true; EvRespond (inl (PyStr name));
                         EvReady true (Some record)]))
      /\ connected (self s2) = true
      /\ config (self s2) = Some record
      /\ _last_config (self s2) = Some record
      /\ _last_header (self s2) = Some fresh
      /\ exists p, dumps (Some record) = Ok p
           /\ header (self s2) = Some (update fresh t_save p)).
Proof.
  intros Hr Hf He. cbv zeta.
  rewrite (attached_header_error _ _ _ _ _ _ _ Hr Hf He).
  split; [done|]. split; [done|]. split; [done|]. split.
  - intros e' s2 Hs. unfold bind. by rewrite Hs.
  - intros s2 Hs.
    destruct (save_Ok_inv _ _ _ Hs)
      as (p & h & hb & d1 & Hd & Hh & Hb & Hw1 & Hw2 & Ht & Hself).
    cbn in Hd, Hh. injection Hh as <-.
    unfold bind. rewrite Hs.
    rewrite (epilogue_named s2 {[ "name"%string := PyStr name ]}
               (PyStr name));
      [| by rewrite Hself | apply lookup_singleton_eq].
    rewrite Hself. repeat split; try done. by exists p.
Qed.

(** C1, amended.  [_attached] does not compare the payload with
    [data_checksum].  For a header that decodes, with [data_length > 0]
    and the unchanged-header shortcut not taken, whenever the payload
    read succeeds and the codec decodes the bytes, the decoded record
    becomes the current and the last-persisted record, whatever the
    header's [data_checksum] is. *)
Theorem attached_adopts_payload_unchecked
    fresh_uid name t_new t_save (s : Sys D) hd h data c :
  read (device s) 0 (Z.of_nat Header_size) = Ok hd ->
  from_bytes hd = Ok h ->
  data_length h > 0 ->
  bool_decide (Some h = _last_header (self s))
    && truthy (_last_config (self s)) = false ->
  read (device s) (get_data_address h) (data_length h) = Ok data ->
  loads data = Ok c ->
  exists s',
    _attached fresh_uid name t_new t_save s = (Ok tt, s')
    /\ connected (self s') = true
    /\ header (self s') = Some h
    /\ config (self s') = Some c
    /\ _last_config (self s') = Some c
    /\ device s' = device s
    /\ trace s'
       = trace s ++ [EvRead 0 (Z.of_nat Header_size);
                     EvRead (get_data_address h) (data_length h);
                     EvTimer true;
                     EvRespond (match c !! "name"%string with
                                | Some v => inl v
                                | None => inr (uid h)
                                end);
                     EvReady true (Some c)].
Proof.
  intros Hr Hf Hlen Hshort Hrd Hl.
  unfold _attached, try, memory_read, attached_label.
  unfold bind, emit, modify, get_self, lift, ret. cbn.
  rewrite Hr, Hf. cbn. rewrite decide_True by done. cbn.
  rewrite Hshort. cbn. rewrite Hrd, Hl. cbn.
  destruct (c !! "name"%string) as [v|] eqn:Hn; cbn.
  - eexists. split; [done|]. cbn. repeat split.
    by rewrite <- !app_assoc.
  - eexists. split; [done|]. cbn. repeat split.
    by rewrite <- !app_assoc.
Qed.

End ControllerFacts.

(** ** The controller on concrete devices *)

Lemma save_payload_then_header_then_commit_witness :
  (exists s',
     save 1700000001 (named_state 2) = (Ok tt, s')
     /\ header (self s')
        = Some (update (Header_new (mkUUID 7) 1700000000) 1700000001
                  [129; 164; 110; 97; 109; 101; 165; 99; 111; 99; 111; 97])
     /\ _last_config (self s') = Some {[ "name"%string := PyStr "cocoa" ]})
  /\ (exists s',
        save 1700000001 (named_state 1) = (Raise CommandError, s')
        /\ self s' = self (named_state 1)).
Proof.
  split.
  - destruct (save_payload_then_header_then_commit 1700000001 (named_state 2))
      as (_ & Hok & _).
    assert (exists s', save 1700000001 (named_state 2) = (Ok tt, s'))
      as [s' E] by (eexists; vm_compute; reflexivity).
    exists s'. split; [exact E|].
    destruct (Hok s' E)
      as (p & h & hb & d1 & Hd & Hh & Hb & Hw1 & Hw2 & Ht & Hhdr & Hlast & Hc).
    assert (dumps (config (self (named_state 2)))
            = Ok [129; 164; 110; 97; 109; 101; 165; 99; 111; 99; 111; 97])
      as Hd' by (vm_compute; reflexivity).
    rewrite Hd' in Hd. injection Hd as <-. injection Hh as <-.
    split; [exact Hhdr | exact Hlast].
  - destruct (save_payload_then_header_then_commit 1700000001 (named_state 1))
      as (_ & _ & Hfail).
    assert (exists s',
              save 1700000001 (named_state 1) = (Raise CommandError, s'))
      as [s' E] by (eexists; vm_compute; reflexivity).
    exists s'. split; [exact E|].
    exact (proj2 (proj2 (Hfail _ _ E))).
Defined.

(** C4, as stated, fails: on a blank device (every byte [ff], so
    [InvalidMagic]) the header that [_attached] synthesizes has data
    checksum [ff ff], not zero. *)
Lemma fresh_header_checksum_not_zero :
  let s := boot (blank_device 512) in
  let out := _attached (mkUUID 7) "cocoa" 1700000000 1700000001 s in
  read (device s) 0 32 = Ok (replicate 32 255)
  /\ from_bytes (replicate 32 255) = Raise InvalidMagic
  /\ fst out = Ok tt
  /\ _last_header (self (snd out))
     = Some (Header_new (mkUUID 7) 1700000000)
  /\ data_length (Header_new (mkUUID 7) 1700000000) = 0
  /\ data_checksum (Header_new (mkUUID 7) 1700000000) = [255; 255]
  /\ data_checksum (Header_new (mkUUID 7) 1700000000) <> [0; 0].
Proof.
  cbv zeta. repeat split; try (vm_compute; reflexivity).
  vm_compute. discriminate.
Qed.

Lemma attached_header_error_initializes_witness :
  let s := boot (blank_device 512) in
  exists s',
    _attached (mkUUID 7) "cocoa" 1700000000 1700000001 s = (Ok tt, s')
    /\ config (self s') = Some {[ "name"%string := PyStr "cocoa" ]}
    /\ _last_header (self s') = Some (Header_new (mkUUID 7) 1700000000).
Proof.
  cbv zeta.
  destruct (attached_header_error_initializes (mkUUID 7) "cocoa"
              1700000000 1700000001 (boot (blank_device 512))
              (replicate 32 255) InvalidMagic)
    as (_ & _ & _ & _ & Hok);
    [vm_compute; reflexivity | vm_compute; reflexivity | reflexivity |].
  edestruct Hok as (Ha & _ & Hc & _ & Hl & _); [vm_compute; reflexivity|].
  eexists. split; [exact Ha|]. split; [exact Hc | exact Hl].
Defined.

(** C1, as stated, fails: on [corrupted_device] the header decodes, its
    [data_length] is 12, the twelve bytes at address 256 do not have the
    checksum the header records, and [_attached] makes the record decoded
    from them the current one. *)
Lemma corrupted_payload_adopted :
  let s := boot corrupted_device in
  let out := _attached (mkUUID 9) "fresh" 1700000100 1700000101 s in
  exists h,
    read (device s) 0 32 = Ok saved_header_bytes
    /\ from_bytes saved_header_bytes = Ok h
    /\ data_length h = 12
    /\ read (device s) (get_data_address h) (data_length h)
       = Ok corrupted_payload
    /\ data_checksum h = [250; 4]
    /\ crc16_ccitt corrupted_payload = [200; 159]
    /\ crc16_ccitt corrupted_payload <> data_checksum h
    /\ loads corrupted_payload = Ok {[ "name"%string := PyStr "cocob" ]}
    /\ fst out = Ok tt
    /\ config (self (snd out)) = Some {[ "name"%string := PyStr "cocob" ]}.
Proof.
  cbv zeta.
  exists (mkHeader [192; 192] 1 (mkUUID 7) 1700000001 0 12 [250; 4]).
  repeat split; try (vm_compute; reflexivity).
  vm_compute. discriminate.
Qed.

Lemma attached_adopts_payload_unchecked_witness :
  exists s',
    _attached (mkUUID 9) "fresh" 1700000100 1700000101 (boot corrupted_device)
    = (Ok tt, s')
    /\ config (self s') = Some {[ "name"%string := PyStr "cocob" ]}
    /\ _last_config (self s') = Some {[ "name"%string := PyStr "cocob" ]}.
Proof.
  destruct (attached_adopts_payload_unchecked (mkUUID 9) "fresh"
              1700000100 1700000101 (boot corrupted_device)
              saved_header_bytes
              (mkHeader [192; 192] 1 (mkUUID 7) 1700000001 0 12 [250; 4])
              corrupted_payload {[ "name"%string := PyStr "cocob" ]})
    as (s' & Ha & _ & _ & Hc & Hl & _);
    [vm_compute; reflexivity | vm_compute; reflexivity | reflexivity
    | vm_compute; reflexivity | vm_compute; reflexivity
    | vm_compute; reflexivity |].
  exists s'. split; [exact Ha|]. split; [exact Hc | exact Hl].
Defined.

(** ** The key-value accessors *)





(** C10. While connected, [delete] of a key that the record does not hold
    raises nothing and returns with the object unchanged: the record and
    the last-persisted snapshot are what they were. *)
Theorem delete_absent_key_is_noop
    (this : CocoaMemory) (key : string) (c : Config) :
  connected this = true -> config this = Some c -> c !! key = None ->
  delete key this = (Ok tt, this)
  /\ config (snd (delete key this)) = config this
  /\ _last_config (snd (delete key this)) = _last_config this.
Proof.
  intros Hc Hcfg Hk. unfold delete. rewrite Hc, Hcfg. cbn [negb].
  rewrite bool_decide_false; [done|]. rewrite Hk. by intros [x Hx].
Qed.

Lemma delete_absent_key_is_noop_witness :
  let on := self (named_state 2) in
  delete "profile" on = (Ok tt, on).
Proof.
  cbv zeta.
  refine (proj1 (delete_absent_key_is_noop (self (named_state 2)) "profile"
                   {[ "name"%string := PyStr "cocoa" ]} _ _ _)).
  - reflexivity.
  - reflexivity.
  - vm_compute. reflexivity.
Defined.

Lemma from_bytes_checks_in_order_witness :
  (from_bytes saved_header_bytes = Raise InvalidMagic
   <-> take 2 saved_header_bytes ≠ Header_magic)
  /\ exists h, from_bytes saved_header_bytes = Ok h.
Proof.
  destruct (from_bytes_checks_in_order saved_header_bytes eq_refl)
    as [Hmagic Hrest].
  split; [exact Hmagic|].
  destruct (Hrest eq_refl) as [_ Hver].
  destruct (Hver eq_refl) as [_ Hcrc].
  apply Hcrc. vm_compute. reflexivity.
Defined.


(** * Further properties of the header codec *)

Lemma le_int_range (l : bytes) :
  is_bytes l -> 0 <= le_int l < 256 ^ Z.of_nat (length l).
Proof.
  induction 1 as [|b l Hb Hl IH]; [cbn; lia|].
  cbn [le_int length]. rewrite Nat2Z.inj_succ, Z.pow_succ_r by lia.
  unfold is_byte in Hb. lia.
Qed.

Lemma le_bytes_le_int (l : bytes) :
  is_bytes l -> le_bytes (length l) (le_int l) = l.
Proof.
  induction 1 as [|b l Hb Hl IH]; [done|].
  cbn [le_int length le_bytes]. unfold is_byte in Hb.
  replace ((b + 256 * le_int l) mod 256) with b.
  2:{ apply (Z.mod_unique_pos _ 256 (le_int l) b); lia. }
  replace ((b + 256 * le_int l) / 256) with (le_int l).
  2:{ apply (Z.div_unique_pos _ 256 (le_int l) b); lia. }
  by rewrite IH.
Qed.

Lemma be_bytes_be_int (l : bytes) :
  is_bytes l -> be_bytes (length l) (be_int l) = l.
Proof.
  intros Hl. unfold be_bytes, be_int.
  rewrite <- (length_rev l), le_bytes_le_int by (by apply Forall_rev).
  apply rev_involutive.
Qed.

Lemma be_int_range (l : bytes) :
  is_bytes l -> 0 <= be_int l < 256 ^ Z.of_nat (length l).
Proof.
  intros Hl. unfold be_int. rewrite <- (length_rev l).
  apply le_int_range. by apply Forall_rev.
Qed.

Lemma from_bytes_Ok_length v h : from_bytes v = Ok h -> length v = 32%nat.
Proof.
  unfold from_bytes. case_decide; [done|].
  destruct (v !! 2%nat); [|done]. case_decide; [done|].
  case_decide; [done|]. unfold struct_unpack, Header_size.
  case_decide; [done | by cbn].
Qed.

Lemma from_bytes_Ok_fields v h :
  from_bytes v = Ok h ->
  length v = 32%nat
  /\ take 2 v = Header_magic /\ v !! 2%nat = Some Header_version
  /\ crc16_ccitt (take 30 v) = drop 30 v
  /\ h = mkHeader (slice 0 2 v) (le_int (slice 2 3 v))
           (mkUUID (be_int (slice 3 19 v)))
           (le_int (slice 21 25 v)) (le_int (slice 25 26 v))
           (le_int (slice 26 28 v)) (slice 28 30 v).
Proof.
  intros Hok. pose proof (from_bytes_Ok_length v h Hok) as Hlen.
  destruct (from_bytes_Ok_inv v h Hlen Hok) as (Hm & Hv & Hc).
  repeat split; try done.
  rewrite from_bytes_32_cases in Hok by done.
  rewrite decide_False in Hok by (intros X; by apply X).
  rewrite decide_False in Hok by (intros X; by apply X).
  rewrite decide_False in Hok by (intros X; by apply X).
  by injection Hok.
Qed.

Lemma is_bytes_slice i j v : is_bytes v -> is_bytes (slice i j v).
Proof. intros Hv. unfold slice. by apply is_bytes_take, is_bytes_drop. Qed.

Lemma length_slice i j v :
  (j <= length v)%nat -> length (slice i j v) = (j - i)%nat.
Proof. intros Hj. unfold slice. rewrite length_take, length_drop. lia. Qed.

Lemma slice_as_take (j : nat) (v : bytes) : slice 0 j v = take j v.
Proof. unfold slice. by rewrite Nat.sub_0_r, drop_0. Qed.

Lemma slice_one (i : nat) (v : bytes) (x : Z) :
  v !! i = Some x -> slice i (S i) v = [x].
Proof.
  intros Hx. unfold slice. replace (S i - i)%nat with 1%nat by lia.
  rewrite <- (take_drop_middle v i x Hx) at 1.
  rewrite drop_app_length'; [done|].
  rewrite length_take. apply lookup_lt_Some in Hx. lia.
Qed.

(** Every header that [from_bytes] returns has its fields in the ranges of
    the layout. *)
Lemma from_bytes_Ok_wf v h :
  is_bytes v -> from_bytes v = Ok h -> Header_wf h.
Proof.
  intros Hb Hok.
  destruct (from_bytes_Ok_fields v h Hok) as (Hlen & Hm & Hv & Hc & ->).
  unfold Header_wf, UUID_valid.
  cbn [magic version uid timestamp data_page data_length data_checksum
       uuid_int].
  split; [by rewrite slice_as_take|].
  split; [by rewrite (slice_one 2 v _ Hv)|].
  repeat split.
  - apply be_int_range. by apply is_bytes_slice.
  - pose proof (be_int_range (slice 3 19 v) (is_bytes_slice 3 19 v Hb)) as H.
    rewrite length_slice in H by lia. apply H.
  - apply le_int_range. by apply is_bytes_slice.
  - pose proof (le_int_range (slice 21 25 v) (is_bytes_slice _ _ v Hb)) as H.
    rewrite length_slice in H by lia. apply H.
  - apply le_int_range. by apply is_bytes_slice.
  - pose proof (le_int_range (slice 25 26 v) (is_bytes_slice _ _ v Hb)) as H.
    rewrite length_slice in H by lia. apply H.
  - apply le_int_range. by apply is_bytes_slice.
  - pose proof (le_int_range (slice 26 28 v) (is_bytes_slice _ _ v Hb)) as H.
    rewrite length_slice in H by lia. apply H.
  - rewrite length_slice; [done | lia].
Qed.

(** X1. A header that [from_bytes] returns came from exactly 32 bytes,
    carries the magic and version constants, keeps every field within the
    width of its slot, and can be encoded and decoded again to itself. *)
Theorem decoded_header_is_well_formed (v : bytes) (h : Header) :
  is_bytes v -> from_bytes v = Ok h ->
  length v = 32%nat
  /\ magic h = Header_magic /\ version h = Header_version
  /\ UUID_valid (uid h)
  /\ 0 <= timestamp h < 2 ^ 32 /\ 0 <= data_page h < 256
  /\ 0 <= data_length h < 2 ^ 16 /\ length (data_checksum h) = 2%nat
  /\ rbind (to_bytes h) from_bytes = Ok h.
Proof.
  intros Hb Hok. pose proof (from_bytes_Ok_wf v h Hb Hok) as Hwf.
  split; [by eapply from_bytes_Ok_length|].
  pose proof (from_bytes_to_bytes_wf h Hwf) as Hrt.
  destruct Hwf as (Hm & Hv & Hu & Ht & Hp & Hl & Hc).
  repeat split; try done; try lia; apply Hu.
Qed.

Lemma decoded_header_is_well_formed_witness :
  exists h, from_bytes saved_header_bytes = Ok h
            /\ rbind (to_bytes h) from_bytes = Ok h.
Proof.
  assert (exists h, from_bytes saved_header_bytes = Ok h) as [h Hh]
    by (eexists; vm_compute; reflexivity).
  exists h. split; [exact Hh|].
  refine (proj2 (proj2 (proj2 (proj2 (proj2 (proj2 (proj2 (proj2
            (decoded_header_is_well_formed saved_header_bytes h _ Hh))))))))).
  repeat constructor; unfold is_byte; lia.
Defined.

Lemma slice_app (i j k : nat) (v : bytes) :
  (i <= j <= k)%nat -> slice i j v ++ slice j k v = slice i k v.
Proof.
  intros Hijk. unfold slice.
  replace (drop j v) with (drop (j - i) (drop i v))
    by (rewrite drop_drop; f_equal; lia).
  rewrite take_take_drop. f_equal. lia.
Qed.

(** X2. [to_bytes] undoes [from_bytes] on stored headers: when the two
    padding bytes of a decodable 32-byte block are zero, encoding the
    decoded header gives back exactly that block. *)
Theorem to_bytes_from_bytes (v : bytes) (h : Header) :
  is_bytes v -> from_bytes v = Ok h ->
  v !! 19%nat = Some 0 -> v !! 20%nat = Some 0 ->
  to_bytes h = Ok v.
Proof.
  intros Hb Hok Hp19 Hp20.
  rewrite (to_bytes_wf h (from_bytes_Ok_wf v h Hb Hok)).
  destruct (from_bytes_Ok_fields v h Hok) as (Hlen & Hm & Hv & Hc & ->).
  cbn [magic version uid timestamp data_page data_length data_checksum].
  assert (Header_magic = slice 0 2 v) as -> by (by rewrite slice_as_take).
  assert ([Header_version] = slice 2 3 v) as ->
    by (by rewrite (slice_one 2 v _ Hv)).
  assert (UUID_bytes (mkUUID (be_int (slice 3 19 v))) = slice 3 19 v) as ->.
  { pose proof (be_bytes_be_int (slice 3 19 v) (is_bytes_slice _ _ v Hb)) as E.
    by rewrite length_slice in E by lia. }
  assert ([0; 0] = slice 19 21 v) as ->.
  { rewrite <- (slice_app 19 20 21) by lia.
    by rewrite (slice_one 19 v 0 Hp19), (slice_one 20 v 0 Hp20). }
  assert (le_bytes 4 (le_int (slice 21 25 v)) = slice 21 25 v) as ->.
  { pose proof (le_bytes_le_int (slice 21 25 v) (is_bytes_slice _ _ v Hb)) as E.
    by rewrite length_slice in E by lia. }
  assert ([le_int (slice 25 26 v)] = slice 25 26 v) as ->.
  { destruct (lookup_lt_is_Some_2 v 25) as [x Hx]; [lia|].
    rewrite (slice_one 25 v x Hx). cbn. f_equal. lia. }
  assert (le_bytes 2 (le_int (slice 26 28 v)) = slice 26 28 v) as ->.
  { pose proof (le_bytes_le_int (slice 26 28 v) (is_bytes_slice _ _ v Hb)) as E.
    by rewrite length_slice in E by lia. }
  rewrite (slice_app 26 28 30), (slice_app 25 26 30), (slice_app 21 25 30),
    (slice_app 19 21 30), (slice_app 3 19 30), (slice_app 2 3 30),
    (slice_app 0 2 30) by lia.
  rewrite slice_as_take, Hc. by rewrite take_drop.
Qed.

Lemma to_bytes_from_bytes_witness :
  to_bytes (mkHeader [192; 192] 1 (mkUUID 7) 1700000001 0 12 [250; 4])
  = Ok saved_header_bytes.
Proof.
  apply to_bytes_from_bytes.
  - repeat constructor; unfold is_byte; lia.
  - vm_compute. reflexivity.
  - reflexivity.
  - reflexivity.
Defined.

(** X3. [to_bytes] fails only on a numeric field that does not fit its
    slot: with [version] and [data_page] in one byte, [timestamp] in four
    and [data_length] in two it returns 32 bytes, whatever the magic, the
    identifier and the data checksum are; otherwise it raises
    [struct.error]. *)
Theorem to_bytes_range_check (h : Header) :
  let in_range :=
    0 <= version h < 256 /\ 0 <= timestamp h < 2 ^ 32
    /\ 0 <= data_page h < 256 /\ 0 <= data_length h < 2 ^ 16 in
  (in_range -> exists b, to_bytes h = Ok b /\ length b = 32%nat)
  /\ (~ in_range -> to_bytes h = Raise StructError).
Proof.
  cbv zeta. split.
  - intros (Hv & Ht & Hp & Hl).
    destruct (struct_pack_in_range (magic h) (version h) (UUID_bytes (uid h))
                (timestamp h) (data_page h) (data_length h) (data_checksum h)
                NULL_CRC16 Hv Ht Hp Hl) as [dat Hdat].
    unfold to_bytes. rewrite Hdat. cbn [rbind]. eexists. split; [done|].
    rewrite length_app, length_crc16_ccitt. unfold but_last2.
    rewrite length_take, (struct_pack_length _ _ _ _ _ _ _ _ _ Hdat).
    reflexivity.
  - intros Hn. unfold to_bytes, struct_pack, pack_uint.
    destruct (decide (0 <= version h < 256 ^ Z.of_nat 1)); [|done].
    destruct (decide (0 <= timestamp h < 256 ^ Z.of_nat 4)); [|done].
    destruct (decide (0 <= data_page h < 256 ^ Z.of_nat 1)); [|done].
    destruct (decide (0 <= data_length h < 256 ^ Z.of_nat 2)); [|done].
    destruct Hn. cbn in *. lia.
Qed.

Lemma to_bytes_range_check_witness :
  (exists b, to_bytes (Header_new (mkUUID 7) 1700000000) = Ok b
             /\ length b = 32%nat)
  /\ to_bytes (Header_new (mkUUID 7) (-1)) = Raise StructError.
Proof.
  split.
  - apply (proj1 (to_bytes_range_check (Header_new (mkUUID 7) 1700000000))).
    cbn [version timestamp data_page data_length Header_new].
    unfold Header_version. lia.
  - apply (proj2 (to_bytes_range_check (Header_new (mkUUID 7) (-1)))).
    cbn [version timestamp data_page data_length Header_new]. lia.
Defined.

(** X4. The payload never overlaps the header: for a decoded header the
    payload address is a multiple of 256 between 256 and 65536, so at or
    beyond the 32 header bytes; for a header made by [Header()] and
    [update] it is 256. *)
Theorem payload_address_beyond_header (h : Header) :
  (forall v, is_bytes v -> from_bytes v = Ok h ->
     256 <= get_data_address h <= 65536
     /\ get_data_address h mod 256 = 0
     /\ Z.of_nat Header_size <= get_data_address h)
  /\ (produced h -> get_data_address h = 256).
Proof.
  split.
  - intros v Hb Hok.
    destruct (from_bytes_Ok_wf v h Hb Hok) as (_ & _ & _ & _ & Hp & _).
    unfold get_data_address, Header_size.
    rewrite Z.mul_comm, Z_mod_mult. lia.
  - intros Hp. unfold get_data_address.
    induction Hp as [u now Hu Hn | h now d Hp IH Hn Hd]; cbn in *; lia.
Qed.

Lemma payload_address_beyond_header_witness :
  get_data_address
    (update (Header_new (mkUUID 7) 1700000000) 1700000001 [128]) = 256.
Proof.
  apply payload_address_beyond_header.
  apply produced_update; [apply produced_new| |]; unfold UUID_valid; simpl; lia.
Defined.

(** * Further properties of the controller *)

Section ControllerMore.
Context {D F : Type} `{!Memory D} `{!PayloadCodec} `{!Floats F}.

(** ** [_attached], path by path *)

(** [_attached] once the header bytes were read and decoded. *)
Lemma attached_decoded fresh_uid name t_new t_save (s : Sys D) hd h :
  read (device s) 0 (Z.of_nat Header_size) = Ok hd ->
  from_bytes hd = Ok h ->
  _attached fresh_uid name t_new t_save s =
    let this1 := set_header (Some h) (set_connected true (self s)) in
    let tr1 := trace s ++ [EvRead 0 (Z.of_nat Header_size)] in
    if decide (data_length h > 0) then
      if bool_decide (Some h = _last_header (self s))
         && truthy (_last_config (self s))
      then attached_epilogue
             (mkSys (set_config (_last_config (self s)) this1) (device s) tr1)
      else
        let tr2 := tr1 ++ [EvRead (get_data_address h) (data_length h)] in
        match read (device s) (get_data_address h) (data_length h) with
        | Raise e => (Raise e, mkSys this1 (device s) tr2)
        | Ok data =>
          match loads data with
          | Raise e => (Raise e, mkSys this1 (device s) tr2)
          | Ok c =>
            attached_epilogue
              (mkSys (set_config (Some c) (set_last_config (Some c) this1))
                 (device s) tr2)
          end
        end
    else attached_epilogue (mkSys (set_config (Some ∅) this1) (device s) tr1).
Proof.
  intros Hr Hf. cbv zeta.
  unfold _attached, attached_epilogue, try, memory_read, attached_label.
  unfold bind, emit, modify, get_self, lift, ret. cbn.
  rewrite Hr, Hf. cbn.
  destruct (decide (data_length h > 0)); cbn; [|done].
  destruct (bool_decide (Some h = _last_header (self s))
            && truthy (_last_config (self s))); cbn; [done|].
  destruct (read (device s) (get_data_address h) (data_length h)) as [data|e];
    cbn; [|done].
  destruct (loads data) as [c|e]; cbn; done.
Qed.

Lemma attached_read_error fresh_uid name t_new t_save (s : Sys D) (e : exn) :
  read (device s) 0 (Z.of_nat Header_size) = Raise e ->
  _attached fresh_uid name t_new t_save s
  = if is_CommandError e
    then (Ok tt,
          mkSys (set_connected false (self s)) (device s)
            (trace s ++ [EvRead 0 (Z.of_nat Header_size);
                         EvReady false (config (self s))]))
    else (Raise e,
          mkSys (self s) (device s)
            (trace s ++ [EvRead 0 (Z.of_nat Header_size)])).
Proof.
  intros Hr. unfold _attached, try, memory_read.
  unfold bind, emit, modify, get_self, raise. cbn. rewrite Hr.
  destruct (is_CommandError e); cbn; [|done]. by rewrite <- app_assoc.
Qed.

(** X5. When the device read of the header fails with a [CommandError],
    [_attached] returns without raising: the controller is disconnected,
    the header, the record and the snapshots are untouched, no payload is
    read, no timer is armed, and the readiness event says "not
    connected".  Any other exception of the read escapes, and then the
    object is not changed at all. *)
Theorem attached_header_read_failure
    fresh_uid name t_new t_save (s : Sys D) (e : exn) :
  read (device s) 0 (Z.of_nat Header_size) = Raise e ->
  (is_CommandError e = true ->
   _attached fresh_uid name t_new t_save s
   = (Ok tt,
      mkSys (set_connected false (self s)) (device s)
        (trace s ++ [EvRead 0 (Z.of_nat Header_size);
                     EvReady false (config (self s))])))
  /\ (is_CommandError e = false ->
      _attached fresh_uid name t_new t_save s
      = (Raise e,
         mkSys (self s) (device s)
           (trace s ++ [EvRead 0 (Z.of_nat Header_size)]))).
Proof.
  intros Hr. rewrite (attached_read_error _ _ _ _ _ _ Hr).
  split; by intros ->.
Qed.

(** X6. A device whose header decodes with [data_length = 0] attaches as
    an empty record: no payload is read, the record is the empty dict, the
    last-persisted snapshot is not touched, and the message names the
    identifier.  On a controller that has no snapshot yet the empty record
    counts as changed. *)
Theorem attached_empty_record
    fresh_uid name t_new t_save (s : Sys D) hd h :
  read (device s) 0 (Z.of_nat Header_size) = Ok hd ->
  from_bytes hd = Ok h ->
  data_length h = 0 ->
  exists s',
    _attached fresh_uid name t_new t_save s = (Ok tt, s')
    /\ self s' = set_config (Some ∅)
                   (set_header (Some h) (set_connected true (self s)))
    /\ device s' = device s
    /\ trace s' = trace s ++ [EvRead 0 (Z.of_nat Header_size); EvTimer true;
                              EvRespond (inr (uid h));
                              EvReady true (Some ∅)]
    /\ (_last_config (self s) = None -> has_changes (self s') = true).
Proof.
  intros Hr Hf Hl. rewrite (attached_decoded _ _ _ _ _ _ _ Hr Hf). cbv zeta.
  rewrite decide_False by lia.
  erewrite (epilogue_unnamed _ ∅ h); [| done | apply lookup_empty | done].
  eexists. split; [done|]. cbn. repeat split.
  - by rewrite <- app_assoc.
  - intros Hn. unfold has_changes. cbn. by rewrite Hn.
Qed.

(** X7. When the header decodes with [data_length > 0] and then the
    payload cannot be read or cannot be decoded, the exception escapes
    [_attached], also a [CommandError]: the controller is left connected
    with the new header, with the record and the snapshot it had before,
    and neither the timer nor the readiness event follows. *)
Theorem attached_payload_failure
    fresh_uid name t_new t_save (s : Sys D) hd h (e : exn) :
  read (device s) 0 (Z.of_nat Header_size) = Ok hd ->
  from_bytes hd = Ok h ->
  data_length h > 0 ->
  bool_decide (Some h = _last_header (self s))
    && truthy (_last_config (self s)) = false ->
  (read (device s) (get_data_address h) (data_length h) = Raise e
   \/ exists data,
        read (device s) (get_data_address h) (data_length h) = Ok data
        /\ loads data = Raise e) ->
  _attached fresh_uid name t_new t_save s
  = (Raise e,
     mkSys (set_header (Some h) (set_connected true (self s))) (device s)
       (trace s ++ [EvRead 0 (Z.of_nat Header_size);
                    EvRead (get_data_address h) (data_length h)])).
Proof.
  intros Hr Hf Hl Hshort Hfail.
  rewrite (attached_decoded _ _ _ _ _ _ _ Hr Hf). cbv zeta.
  rewrite decide_True by done. rewrite Hshort.
  destruct Hfail as [-> | (data & -> & ->)]; by rewrite <- app_assoc.
Qed.

(** ** The last header never describes a payload *)

Lemma save_last_header (now : Z) (s : Sys D) :
  _last_header (self (save now s).2) = _last_header (self s)
  /\ connected (self (save now s).2) = connected (self s)
  /\ config (self (save now s).2) = config (self s).
Proof.
  rewrite save_cases.
  destruct (dumps (config (self s))) as [p|e0]; [|done].
  destruct (header (self s)) as [h|]; [|done]. cbv zeta.
  destruct (write (device s) _ p) as [[[]|e1] d1]; [|done].
  destruct (to_bytes _) as [hb|e2]; [|done].
  destruct (write d1 0 hb) as [[[]|e3] d2]; done.
Qed.

Lemma epilogue_self (s : Sys D) : self (attached_epilogue s).2 = self s.
Proof.
  unfold attached_epilogue, attached_label.
  unfold bind, emit, get_self, raise, ret. cbn.
  destruct (config (self s)) as [c|]; [|done].
  destruct (c !! "name"%string); [done|].
  destruct (header (self s)); done.
Qed.

Lemma epilogue_trace (s : Sys D) :
  exists rest, trace (attached_epilogue s).2 = trace s ++ rest.
Proof.
  unfold attached_epilogue, attached_label.
  unfold bind, emit, get_self, raise, ret. cbn.
  destruct (config (self s)) as [c|]; [|by eexists [_]].
  destruct (c !! "name"%string).
  { cbn. eexists [_; _; _]. by rewrite <- !app_assoc. }
  destruct (header (self s)); cbn.
  - eexists [_; _; _]. by rewrite <- !app_assoc.
  - by eexists [_].
Qed.

Lemma attached_last_header fresh_uid name t_new t_save (s : Sys D) :
  _last_header (self (_attached fresh_uid name t_new t_save s).2)
  = _last_header (self s)
  \/ _last_header (self (_attached fresh_uid name t_new t_save s).2)
     = Some (Header_new fresh_uid t_new).
Proof.
  destruct (read (device s) 0 (Z.of_nat Header_size)) as [hd|e] eqn:Hr.
  - destruct (from_bytes hd) as [h|e] eqn:Hf.
    + left. rewrite (attached_decoded _ _ _ _ _ _ _ Hr Hf). cbv zeta.
      destruct (decide (data_length h > 0)).
      * destruct (bool_decide _ && truthy _).
        { by rewrite epilogue_self. }
        destruct (read (device s) (get_data_address h) (data_length h))
          as [data|e0]; [|by cbn].
        destruct (loads data) as [c|e0]; [|by cbn].
        by rewrite epilogue_self.
      * by rewrite epilogue_self.
    + destruct (is_HeaderError e) eqn:He.
      * right. rewrite (attached_header_error _ _ _ _ _ _ _ Hr Hf He).
        unfold bind. set (s1 := mkSys _ _ _).
        pose proof (save_last_header t_save s1) as (Hl & _ & _).
        destruct (save t_save s1) as [[[]|e'] s2] eqn:Hs;
          try rewrite Hs in Hl; cbv beta iota; [|exact Hl].
        rewrite epilogue_self. exact Hl.
      * left. unfold _attached, try, memory_read.
        unfold bind, emit, modify, get_self, raise. cbn.
        rewrite Hr. cbn. rewrite Hf, He. done.
  - left. rewrite (attached_read_error _ _ _ _ _ _ Hr).
    by destruct (is_CommandError e).
Qed.

Lemma accessor_last_header (this : CocoaMemory) key v :
  _last_header (has key this).2 = _last_header this
  /\ _last_header (get key v this).2 = _last_header this
  /\ _last_header (set key v this).2 = _last_header this
  /\ _last_header (setdefault key v this).2 = _last_header this
  /\ _last_header (delete key this).2 = _last_header this.
Proof.
  unfold has, get, set, setdefault, delete.
  destruct (connected this); cbn; [|done].
  destruct (config this) as [c|]; cbn; [|done].
  repeat split.
  - by destruct (is_Ellipsis _).
  - by destruct (c !! key).
  - by destruct (bool_decide _).
Qed.

(** In every state the controller can reach, the last header is absent or
    describes no payload. *)
Lemma reachable_last_header (s : Sys D) :
  reachable (F := F) s ->
  forall h, _last_header (self s) = Some h -> data_length h = 0.
Proof.
  induction 1 as [d | s d Hs IH | s u n t1 t2 Hs IH | s Hs IH | s now Hs IH
                 | s now et Hs IH | s k Hs IH | s k v Hs IH | s k v Hs IH
                 | s k v Hs IH | s k Hs IH]; intros h Hh.
  - done.
  - by apply IH.
  - destruct (attached_last_header u n t1 t2 s) as [E|E];
      rewrite E in Hh; [by apply IH | by injection Hh as <-].
  - by apply IH.
  - rewrite (proj1 (save_last_header now s)) in Hh. by apply IH.
  - unfold _autosave, bind, get_self, ret in Hh. cbn in Hh.
    destruct (has_changes (self s)).
    + pose proof (proj1 (save_last_header now s)) as E.
      destruct (save now s) as [[[]|e] s1]; cbn in *;
        rewrite E in Hh; by apply IH.
    + by apply IH.
  - cbn in Hh. rewrite (proj1 (accessor_last_header (self s) k PyNone)) in Hh.
    by apply IH.
  - cbn in Hh.
    rewrite (proj1 (proj2 (accessor_last_header (self s) k v))) in Hh.
    by apply IH.
  - cbn in Hh.
    rewrite (proj1 (proj2 (proj2 (accessor_last_header (self s) k v)))) in Hh.
    by apply IH.
  - cbn in Hh.
    rewrite (proj1 (proj2 (proj2 (proj2
               (accessor_last_header (self s) k v))))) in Hh.
    by apply IH.
  - cbn in Hh.
    rewrite (proj2 (proj2 (proj2 (proj2
               (accessor_last_header (self s) k PyNone))))) in Hh.
    by apply IH.
Qed.

(** X8. The "unchanged since last attachment" shortcut is never taken.
    Whatever sequence of operations the controller has been through, when
    a decoded header announces a payload ([data_length > 0]) the shortcut
    test is false and [_attached] goes on to read that payload from the
    device. *)
Theorem attached_always_reads_payload
    fresh_uid name t_new t_save (s : Sys D) hd h :
  reachable (F := F) s ->
  read (device s) 0 (Z.of_nat Header_size) = Ok hd ->
  from_bytes hd = Ok h ->
  data_length h > 0 ->
  bool_decide (Some h = _last_header (self s))
    && truthy (_last_config (self s)) = false
  /\ exists rest,
       trace (_attached fresh_uid name t_new t_save s).2
       = trace s ++ [EvRead 0 (Z.of_nat Header_size);
                     EvRead (get_data_address h) (data_length h)] ++ rest.
Proof.
  intros Hreach Hr Hf Hl.
  assert (bool_decide (Some h = _last_header (self s)) = false) as Hne.
  { apply bool_decide_eq_false. intros E. symmetry in E.
    pose proof (reachable_last_header s Hreach h E). lia. }
  split; [by rewrite Hne|].
  rewrite (attached_decoded _ _ _ _ _ _ _ Hr Hf). cbv zeta.
  rewrite decide_True by done. rewrite Hne. cbn [andb].
  destruct (read (device s) (get_data_address h) (data_length h))
    as [data|e].
  2:{ exists []. cbn. by rewrite <- app_assoc. }
  destruct (loads data) as [c|e].
  2:{ exists []. cbn. by rewrite <- app_assoc. }
  destruct (epilogue_trace
              (mkSys (set_config (Some c)
                        (set_last_config (Some c)
                           (set_header (Some h)
                              (set_connected true (self s)))))
                 (device s)
                 ((trace s ++ [EvRead 0 (Z.of_nat Header_size)])
                    ++ [EvRead (get_data_address h) (data_length h)])))
    as [rest Hrest].
  exists rest. rewrite Hrest. cbn. by rewrite <- !app_assoc.
Qed.

End ControllerMore.

(** ** Equality of records *)

Lemma dict_get_NoDup (d : list (string * PyValue)) k v :
  NoDup (fst <$> d) -> (k, v) ∈ d -> dict_get k d = Some v.
Proof.
  induction d as [|[k' v'] d IH]; intros Hnd Hin.
  - by apply elem_of_nil in Hin.
  - cbn [dict_get]. cbn in Hnd. apply NoDup_cons in Hnd as [Hk Hnd].
    apply elem_of_cons in Hin as [E|Hin].
    + injection E as <- <-. by rewrite String.eqb_refl.
    + destruct (String.eqb k' k) eqn:E.
      * apply String.eqb_eq in E as ->. destruct Hk.
        apply list_elem_of_fmap. by exists (k, v).
      * by apply IH.
Qed.

(** A value with well-formed dicts equals itself. *)
Lemma py_eqb_refl (v : PyValue) : py_wf v -> py_eqb v v = true.
Proof.
  induction v as [| | b | n | s | l IH | d IH] using PyValue_nested_ind;
    intros Hwf; cbn [py_eqb].
  - done.
  - done.
  - by destruct b.
  - apply Z.eqb_refl.
  - apply String.eqb_refl.
  - cbn [py_wf] in Hwf. induction IH as [|x l Hx Hl IHl]; [done|].
    destruct Hwf as [Hwx Hwl]. rewrite (Hx Hwx). cbn [andb]. by apply IHl.
  - cbn [py_wf] in Hwf. destruct Hwf as [Hnd Hall].
    rewrite Nat.eqb_refl. cbn [andb].
    assert (forall kv, kv ∈ d -> dict_get kv.1 d = Some kv.2) as Hget.
    { intros [k x] Hin. by apply dict_get_NoDup. }
    clear Hnd. revert Hget Hall IH.
    generalize d at 1 3 4 6 as d1. intros d1.
    induction d1 as [|[k x] d1 IHd]; intros Hget Hall IH; [done|].
    destruct Hall as [Hwx Hall]. apply Forall_cons in IH as [Hx IH].
    pose proof (Hget (k, x) (list_elem_of_here _ _)) as Hk.
    cbn [fst snd] in Hk, Hx. rewrite Hk.
    rewrite (Hx Hwx). cbn [andb]. apply IHd; [|done..].
    intros kv Hin. apply Hget. by apply list_elem_of_further.
Qed.

Lemma config_eqb_refl (c : Config) :
  map_Forall (fun _ v => py_wf v) c -> config_eqb c c = true.
Proof.
  intros Hwf. unfold config_eqb. rewrite Nat.eqb_refl. cbn [andb].
  apply forallb_forall. intros [k v] Hin.
  apply list_elem_of_In, elem_of_map_to_list in Hin. cbn [fst snd].
  rewrite Hin. apply py_eqb_refl. by apply (Hwf k v).
Qed.

Lemma config_ne_refl (c : option Config) : config_wf c -> config_ne c c = false.
Proof.
  destruct c as [c|]; [|done]. intros Hwf. cbn.
  by rewrite config_eqb_refl.
Qed.

Lemma config_eqb_size (a b : Config) : config_eqb a b = true -> size a = size b.
Proof.
  unfold config_eqb. intros H. apply andb_prop in H as [H _].
  by apply Nat.eqb_eq in H.
Qed.

(** ** [save], [_on_detach] and [_autosave] *)

Section ControllerCycle.
Context {D F : Type} `{!Memory D} `{!PayloadCodec} `{!Floats F}.

Lemma to_bytes_out_of_range h now p :
  2 ^ 16 <= Z.of_nat (length p) \/ ~ 0 <= now < 2 ^ 32 ->
  to_bytes (update h now p) = Raise StructError.
Proof.
  intros Hbad. unfold to_bytes, struct_pack, pack_uint.
  cbn [version timestamp data_page data_length update].
  destruct (decide (0 <= version h < 256 ^ Z.of_nat 1)); [|done].
  destruct (decide (0 <= now < 256 ^ Z.of_nat 4)) as [Hn|]; [|done].
  destruct (decide (0 <= data_page h < 256 ^ Z.of_nat 1)); [|done].
  destruct (decide (0 <= Z.of_nat (length p) < 256 ^ Z.of_nat 2)) as [Hl|];
    [|done].
  cbn in Hn, Hl. lia.
Qed.

(** X9. A payload of 64 KiB or more, or a clock reading beyond 32 bits,
    is found out only after the payload has been written: [save] writes
    the payload, then raises [struct.error] while encoding the header; the
    header on the device is not rewritten and the object is unchanged. *)
Theorem save_payload_written_before_encoding_fails
    (now : Z) (s : Sys D) (p : bytes) (h : Header) (d1 : D) :
  dumps (config (self s)) = Ok p ->
  header (self s) = Some h ->
  2 ^ 16 <= Z.of_nat (length p) \/ ~ 0 <= now < 2 ^ 32 ->
  write (device s) (get_data_address (update h now p)) p = (Ok tt, d1) ->
  save now s
  = (Raise StructError,
     mkSys (self s) d1
       (trace s ++ [EvWrite (get_data_address (update h now p)) p])).
Proof.
  intros Hd Hh Hbad Hw. rewrite save_cases, Hd, Hh. cbv zeta.
  rewrite Hw. by rewrite (to_bytes_out_of_range h now p Hbad).
Qed.

(** X10. [save] with no current header, as after a detach, raises before
    any device access and changes nothing. *)
Theorem save_without_header (now : Z) (s : Sys D) :
  header (self s) = None ->
  (save now s).2 = s
  /\ exists e, (save now s).1 = Raise e
               /\ (forall p, dumps (config (self s)) = Ok p ->
                   e = AttributeError).
Proof.
  intros Hh. rewrite save_cases, Hh.
  destruct (dumps (config (self s))) as [p|e].
  - split; [done|]. exists AttributeError. by split.
  - split; [done|]. exists e. split; [done|]. intros p Hp. discriminate.
Qed.

Lemma update_update h t1 t2 d1 d2 :
  update (update h t1 d1) t2 d2 = update h t2 d2.
Proof. reflexivity. Qed.

(** X11. Two saves in a row, with the record untouched in between, write
    the same payload bytes to the same address both times, and the two
    headers differ in the timestamp only: the identifier, the page, the
    length and the data checksum are the same. *)
Theorem save_twice_same_payload (now1 now2 : Z) (s s1 s2 : Sys D) :
  save now1 s = (Ok tt, s1) ->
  save now2 s1 = (Ok tt, s2) ->
  exists p h hb1 hb2,
    header (self s) = Some h
    /\ dumps (config (self s)) = Ok p
    /\ header (self s1) = Some (update h now1 p)
    /\ header (self s2) = Some (update h now2 p)
    /\ to_bytes (update h now1 p) = Ok hb1
    /\ to_bytes (update h now2 p) = Ok hb2
    /\ trace s2
       = trace s ++ [EvWrite (256 * (data_page h + 1)) p; EvWrite 0 hb1;
                     EvWrite (256 * (data_page h + 1)) p; EvWrite 0 hb2]
    /\ config (self s2) = config (self s)
    /\ _last_config (self s2) = config (self s).
Proof.
  intros H1 H2.
  destruct (save_Ok_inv _ _ _ H1)
    as (p & h & hb1 & d1 & Hd1 & Hh1 & Hb1 & _ & _ & Ht1 & Hs1).
  destruct (save_Ok_inv _ _ _ H2)
    as (p' & h' & hb2 & d2 & Hd2 & Hh2 & Hb2 & _ & _ & Ht2 & Hs2).
  rewrite Hs1 in Hd2, Hh2. cbn in Hd2, Hh2.
  rewrite Hd1 in Hd2. injection Hd2 as <-. injection Hh2 as <-.
  rewrite update_update in Hb2, Ht2, Hs2.
  exists p, h, hb1, hb2. rewrite Hs2, Hs1, Ht2, Ht1. cbn.
  repeat split; try done. by rewrite <- app_assoc.
Qed.

(** X12. [_on_detach] leaves the controller disconnected without header
    or record, keeps the last header and the last-persisted record,
    touches the device not at all and cancels the timer; from then on each
    accessor raises [MemoryNotConnected].  With a record persisted before,
    [has_changes] is true after the detach, the absent record differing
    from the snapshot that was kept. *)
Theorem detach_disconnects (s : Sys D) (key : string) (v : PyValue) :
  let s' := (_on_detach s).2 in
  (_on_detach s).1 = Ok tt
  /\ connected (self s') = false
  /\ header (self s') = None /\ config (self s') = None
  /\ _last_header (self s') = _last_header (self s)
  /\ _last_config (self s') = _last_config (self s)
  /\ device s' = device s
  /\ trace s' = trace s ++ [EvTimer false]
  /\ (has key (self s')).1 = Raise MemoryNotConnected
  /\ (get key v (self s')).1 = Raise MemoryNotConnected
  /\ (set key v (self s')).1 = Raise MemoryNotConnected
  /\ (setdefault key v (self s')).1 = Raise MemoryNotConnected
  /\ (delete key (self s')).1 = Raise MemoryNotConnected
  /\ (is_Some (_last_config (self s)) -> has_changes (self s') = true).
Proof.
  cbv zeta. repeat split. intros [c Hc]. unfold has_changes. cbn.
  by rewrite Hc.
Qed.

(** ** [_autosave] *)

Lemma autosave_cases (now : Z) (eventtime : F) (s : Sys D) :
  _autosave now eventtime s =
    if has_changes (self s) then
      match save now s with
      | (Ok _, s') => (Ok (float_add eventtime AUTOSAVE_INTERVAL), s')
      | (Raise e, s') => (Raise e, s')
      end
    else (Ok (float_add eventtime AUTOSAVE_INTERVAL), s).
Proof.
  unfold _autosave, bind, get_self, ret. cbv beta iota zeta.
  destruct (has_changes (self s)); [|done].
  by destruct (save now s) as [[[]|e] s'].
Qed.

Lemma save_Ok_clean (now : Z) (s s' : Sys D) :
  save now s = (Ok tt, s') -> config_wf (config (self s)) ->
  has_changes (self s') = false.
Proof.
  intros Hs Hwf.
  destruct (save_Ok_inv _ _ _ Hs) as (p & h & hb & d1 & _ & _ & _ & _ & _ & _ & ->).
  unfold has_changes. cbn. by apply config_ne_refl.
Qed.

(** X13. [_autosave] is gated on [has_changes].  With the record equal to
    the last-persisted one it accesses nothing and changes nothing.  With
    a changed record it runs [save]: when that returns, the record is
    clean again; when that raises, the exception escapes [_autosave], no
    wake-up time is returned, and the record is still changed.  In the
    two returning cases the wake-up time is
    [eventtime + AUTOSAVE_INTERVAL]. *)
Theorem autosave_gated_on_changes (now : Z) (eventtime : F) (s : Sys D) :
  (has_changes (self s) = false ->
   _autosave now eventtime s
   = (Ok (float_add eventtime AUTOSAVE_INTERVAL), s))
  /\ (has_changes (self s) = true ->
      (forall s', save now s = (Ok tt, s') ->
         _autosave now eventtime s
         = (Ok (float_add eventtime AUTOSAVE_INTERVAL), s')
         /\ (config_wf (config (self s)) -> has_changes (self s') = false))
      /\ (forall e s', save now s = (Raise e, s') ->
            _autosave now eventtime s = (Raise e, s')
            /\ has_changes (self s') = true)).
Proof.
  rewrite autosave_cases. split; [by intros ->|]. intros Hc. rewrite Hc.
  split.
  - intros s' Hs. rewrite Hs. split; [done|]. apply (save_Ok_clean now s s' Hs).
  - intros e s' Hs. rewrite Hs. split; [done|].
    by rewrite (save_Raise_inv _ _ _ _ Hs).
Qed.

(** X14. After an [_autosave] that returned, the next [_autosave] makes
    no device access: it returns its wake-up time and leaves the state as
    it is. *)
Theorem autosave_then_autosave_is_idle
    (now now' : Z) (eventtime eventtime' t : F) (s s1 : Sys D) :
  config_wf (config (self s)) ->
  _autosave now eventtime s = (Ok t, s1) ->
  _autosave now' eventtime' s1
  = (Ok (float_add eventtime' AUTOSAVE_INTERVAL), s1).
Proof.
  intros Hwf. rewrite autosave_cases.
  destruct (has_changes (self s)) eqn:Hc.
  - destruct (save now s) as [[[]|e] s'] eqn:Hs; [|done].
    intros [= _ <-]. rewrite autosave_cases.
    by rewrite (save_Ok_clean _ _ _ Hs Hwf).
  - intros [= _ <-]. rewrite autosave_cases. by rewrite Hc.
Qed.

End ControllerCycle.

(** ** Saving, detaching and attaching again *)

Section SaveAttach.
Context {D F : Type} `{!Memory D} `{!PayloadCodec} `{!Floats F}.

(** X15. What [save] stored is what the next attachment finds.  Take a
    reachable controller with a well-formed header and a record [c] whose
    payload [p] is non-empty, shorter than 64 KiB and decoded back to [c]
    by the codec.  After a successful [save] and a detach, if the device
    returns the header bytes and the payload bytes that were written, then
    [_attached] returns with the saved header as current (same identifier)
    and with [c] as the current and the last-persisted record. *)
Theorem reattach_restores_saved_record
    (now : Z) (s s1 : Sys D) (c : Config) (h : Header) (p : bytes)
    fresh_uid name t_new t_save :
  reachable (F := F) s ->
  config (self s) = Some c -> header (self s) = Some h -> Header_wf h ->
  0 <= now < 2 ^ 32 ->
  dumps (Some c) = Ok p ->
  0 < Z.of_nat (length p) < 2 ^ 16 ->
  loads p = Ok c ->
  save now s = (Ok tt, s1) ->
  read (device s1) 0 (Z.of_nat Header_size) = to_bytes (update h now p) ->
  read (device s1) (get_data_address (update h now p)) (Z.of_nat (length p))
  = Ok p ->
  exists s3,
    _attached fresh_uid name t_new t_save (_on_detach s1).2 = (Ok tt, s3)
    /\ connected (self s3) = true
    /\ header (self s3) = Some (update h now p)
    /\ config (self s3) = Some c
    /\ _last_config (self s3) = Some c
    /\ device s3 = device s1.
Proof.
  intros Hreach Hc Hh Hwf Hnow Hd Hlen Hl Hs Hrh Hrp.
  assert (Header_wf (update h now p)) as Hwf' by (apply update_wf; [done..|lia]).
  pose proof (from_bytes_to_bytes_wf _ Hwf') as Hrt.
  destruct (to_bytes (update h now p)) as [hb|] eqn:Hb; [|done].
  cbn [rbind] in Hrt.
  set (s2 := (_on_detach s1).2).
  assert (device s2 = device s1) as Hdev by done.
  assert (_last_header (self s2) = _last_header (self s)) as Hlh.
  { subst s2. cbn. pose proof (proj1 (save_last_header now s)) as E.
    by rewrite Hs in E. }
  assert (header (self s2) = None) as Hh2 by done.
  rewrite (attached_decoded fresh_uid name t_new t_save s2 hb (update h now p))
    by (by rewrite ?Hdev).
  cbv zeta. cbn [data_length update] in *.
  rewrite decide_True by lia.
  assert (bool_decide (Some (update h now p) = _last_header (self s2)) = false)
    as ->.
  { apply bool_decide_eq_false. rewrite Hlh. intros E. symmetry in E.
    pose proof (reachable_last_header s Hreach _ E) as H0.
    cbn in H0. lia. }
  cbn [andb]. rewrite Hdev.
  change (data_length (update h now p)) with (Z.of_nat (length p)).
  rewrite Hrp, Hl.
  set (s3 := mkSys _ _ _).
  destruct (c !! "name"%string) as [v|] eqn:Hn.
  - rewrite (epilogue_named s3 c v) by done.
    eexists. split; [done|]. by cbn.
  - rewrite (epilogue_unnamed s3 c (update h now p)) by done.
    eexists. split; [done|]. by cbn.
Qed.

End SaveAttach.

(** ** The further controller properties on concrete devices *)

Lemma attached_header_read_failure_witness :
  _attached (mkUUID 7) "cocoa" 1700000000 1700000001 (boot absent_device)
  = (Ok tt,
     mkSys CocoaMemory_init absent_device [EvRead 0 32; EvReady false None]).
Proof.
  refine (proj1 (attached_header_read_failure (mkUUID 7) "cocoa" 1700000000
                   1700000001 (boot absent_device) CommandError _) _);
    reflexivity.
Defined.

Lemma attached_empty_record_witness :
  exists s',
    _attached (mkUUID 9) "fresh" 1700000100 1700000101
      (boot empty_record_device) = (Ok tt, s')
    /\ has_changes (self s') = true.
Proof.
  destruct (attached_empty_record (mkUUID 9) "fresh" 1700000100 1700000101
              (boot empty_record_device) empty_header_bytes
              (Header_new (mkUUID 7) 1700000000))
    as (s' & Ha & _ & _ & _ & Hc);
    [vm_compute; reflexivity | vm_compute; reflexivity | reflexivity |].
  exists s'. split; [exact Ha | apply Hc; reflexivity].
Defined.

Lemma attached_payload_failure_witness :
  exists s',
    _attached (mkUUID 9) "fresh" 1700000100 1700000101 (boot truncated_device)
    = (Raise CommandError, s')
    /\ connected (self s') = true /\ config (self s') = None.
Proof.
  eexists. split.
  - apply (attached_payload_failure (mkUUID 9) "fresh" 1700000100 1700000101
             (boot truncated_device) saved_header_bytes
             (mkHeader [192; 192] 1 (mkUUID 7) 1700000001 0 12 [250; 4])
             CommandError);
      [vm_compute; reflexivity | vm_compute; reflexivity | reflexivity
      | vm_compute; reflexivity | left; vm_compute; reflexivity].
  - split; reflexivity.
Defined.

Lemma attached_always_reads_payload_witness :
  exists rest,
    trace (_attached (mkUUID 9) "fresh" 1700000100 1700000101
             (boot corrupted_device)).2
    = [EvRead 0 32; EvRead 256 12] ++ rest.
Proof.
  destruct (attached_always_reads_payload (F := Z) (mkUUID 9) "fresh"
              1700000100 1700000101 (boot corrupted_device)
              saved_header_bytes
              (mkHeader [192; 192] 1 (mkUUID 7) 1700000001 0 12 [250; 4]))
    as [_ [rest Hrest]];
    [apply reach_init | vm_compute; reflexivity | vm_compute; reflexivity
    | reflexivity |].
  exists rest. exact Hrest.
Defined.

Lemma save_payload_written_before_encoding_fails_witness :
  exists d1,
    save (2 ^ 32) (named_state 2)
    = (Raise StructError,
       mkSys (self (named_state 2)) d1
         [EvWrite 256 [129; 164; 110; 97; 109; 101; 165; 99; 111; 99; 111; 97]]).
Proof.
  assert (exists d1,
            write (device (named_state 2)) 256
              [129; 164; 110; 97; 109; 101; 165; 99; 111; 99; 111; 97]
            = (Ok tt, d1)) as [d1 Hw] by (eexists; vm_compute; reflexivity).
  exists d1.
  apply (save_payload_written_before_encoding_fails (2 ^ 32) (named_state 2)
           [129; 164; 110; 97; 109; 101; 165; 99; 111; 99; 111; 97]
           (Header_new (mkUUID 7) 1700000000) d1);
    [vm_compute; reflexivity | reflexivity | right; lia | exact Hw].
Defined.

Lemma save_without_header_witness :
  (save 1700000001 (boot (blank_device 512))).2 = boot (blank_device 512).
Proof.
  apply (proj1 (save_without_header 1700000001 (boot (blank_device 512))
                  eq_refl)).
Defined.

Lemma save_twice_same_payload_witness :
  exists s1 s2 p h,
    save 1700000001 (named_state 4) = (Ok tt, s1)
    /\ save 1700000002 s1 = (Ok tt, s2)
    /\ header (self s1) = Some (update h 1700000001 p)
    /\ header (self s2) = Some (update h 1700000002 p).
Proof.
  assert (exists s1, save 1700000001 (named_state 4) = (Ok tt, s1))
    as [s1 H1] by (eexists; vm_compute; reflexivity).
  assert (exists s2, save 1700000002 s1 = (Ok tt, s2)) as [s2 H2].
  { apply (f_equal snd) in H1 as E. cbn [snd] in E. subst s1.
    eexists. vm_compute. reflexivity. }
  destruct (save_twice_same_payload _ _ _ _ _ H1 H2)
    as (p & h & hb1 & hb2 & _ & _ & Hh1 & Hh2 & _).
  exists s1, s2, p, h. by repeat split.
Defined.

Lemma detach_disconnects_witness :
  has_changes (self (_on_detach initialized_state).2) = true
  /\ (get "name" PyNone (self (_on_detach initialized_state).2)).1
     = Raise MemoryNotConnected.
Proof.
  destruct (detach_disconnects initialized_state "name" PyNone)
    as (_ & _ & _ & _ & _ & _ & _ & _ & _ & Hget & _ & _ & _ & Hdirty).
  split; [|exact Hget]. apply Hdirty.
  exists {[ "name"%string := PyStr "cocoa" ]}. vm_compute. reflexivity.
Defined.

Lemma edited_state_config :
  config (self edited_state)
  = Some (<[ "profile"%string := PyInt 3 ]>
            {[ "name"%string := PyStr "cocoa" ]}).
Proof. vm_compute. reflexivity. Qed.

Lemma edited_state_wf : config_wf (config (self edited_state)).
Proof.
  rewrite edited_state_config. cbn [config_wf].
  apply map_Forall_insert_2; [done|]. by apply map_Forall_singleton.
Qed.

Lemma edited_state_reachable : reachable (F := Z) edited_state.
Proof.
  unfold edited_state. apply reach_set. unfold initialized_state. cbv zeta.
  apply reach_device, reach_attached, reach_init.
Qed.

Lemma autosave_gated_on_changes_witness :
  _autosave 1700000500 100 initialized_state = (Ok 101, initialized_state)
  /\ exists s',
       _autosave 1700000500 100 edited_state = (Ok 101, s')
       /\ has_changes (self s') = false.
Proof.
  split.
  - change (Ok 101) with (Ok (A := Z) (float_add 100 AUTOSAVE_INTERVAL)).
    apply (proj1 (autosave_gated_on_changes 1700000500 100 initialized_state)).
    vm_compute. reflexivity.
  - assert (exists s', save 1700000500 edited_state = (Ok tt, s'))
      as [s' Hs] by (eexists; vm_compute; reflexivity).
    destruct (autosave_gated_on_changes 1700000500 100 edited_state)
      as [_ Hdirty].
    destruct Hdirty as [Hok _]; [vm_compute; reflexivity|].
    destruct (Hok s' Hs) as [Ha Hclean].
    exists s'. split; [exact Ha | exact (Hclean edited_state_wf)].
Defined.

Lemma autosave_then_autosave_is_idle_witness :
  exists s1,
    _autosave 1700000500 100 edited_state = (Ok 101, s1)
    /\ _autosave 1700000501 101 s1 = (Ok 102, s1).
Proof.
  assert (exists s1, _autosave 1700000500 100 edited_state = (Ok 101, s1))
    as [s1 H1] by (eexists; vm_compute; reflexivity).
  exists s1. split; [exact H1|].
  exact (autosave_then_autosave_is_idle 1700000500 1700000501 100 101 101
           edited_state s1 edited_state_wf H1).
Defined.

Lemma reattach_restores_saved_record_witness :
  exists s1 s3,
    save 1700000500 edited_state = (Ok tt, s1)
    /\ _attached (mkUUID 9) "fresh" 1700000600 1700000601 (_on_detach s1).2
       = (Ok tt, s3)
    /\ config (self s3)
       = Some (<[ "profile"%string := PyInt 3 ]>
                 {[ "name"%string := PyStr "cocoa" ]}).
Proof.
  assert (exists s1, save 1700000500 edited_state = (Ok tt, s1))
    as [s1 Hs] by (eexists; vm_compute; reflexivity).
  assert (s1 = (save 1700000500 edited_state).2) as Es1 by (by rewrite Hs).
  destruct (reattach_restores_saved_record (F := Z) 1700000500 edited_state s1
              (<[ "profile"%string := PyInt 3 ]>
                 {[ "name"%string := PyStr "cocoa" ]})
              (update (Header_new (mkUUID 7) 1700000000) 1700000001
                 [129; 164; 110; 97; 109; 101; 165; 99; 111; 99; 111; 97])
              [130; 164; 110; 97; 109; 101; 165; 99; 111; 99; 111; 97; 167;
               112; 114; 111; 102; 105; 108; 101; 3]
              (mkUUID 9) "fresh" 1700000600 1700000601)
    as (s3 & Ha & _ & _ & Hc & _).
  - exact edited_state_reachable.
  - exact edited_state_config.
  - vm_compute. reflexivity.
  - unfold Header_wf, UUID_valid. cbn. repeat split; lia.
  - lia.
  - vm_compute. reflexivity.
  - cbn. lia.
  - vm_compute. reflexivity.
  - exact Hs.
  - rewrite Es1. vm_compute. reflexivity.
  - rewrite Es1. vm_compute. reflexivity.
  - exists s1, s3. split; [exact Hs|]. split; [exact Ha | exact Hc].
Defined.

(** * Further properties of the accessors *)

(** X16. On a connected controller that holds a record, [set] stores the
    value in the record and touches nothing else of the object;
    afterwards [has] finds the key, [get] returns the value (or raises
    [KeyError] when the value stored is the [...] object, which [get]
    takes for "missing"), and other keys read as before.  On a connected
    controller that holds no record ([config] is [None]), [set] raises
    [TypeError] and changes nothing. *)
Theorem set_then_read
    (this : CocoaMemory) (key : string) (v d : PyValue) :
  connected this = true ->
  (forall c, config this = Some c ->
     let this' := (set key v this).2 in
     (set key v this).1 = Ok tt
     /\ this' = set_config (Some (<[key := v]> c)) this
     /\ (has key this').1 = Ok true
     /\ (get key d this').1 = (if is_Ellipsis v then Raise KeyError else Ok v)
     /\ (forall k', k' <> key ->
         (has k' this').1 = (has k' this).1
         /\ (get k' d this').1 = (get k' d this).1))
  /\ (config this = None -> set key v this = (Raise TypeError, this)).
Proof.
  intros Hc. split.
  - intros c Hcfg. cbv zeta. unfold set, has, get. rewrite Hc, Hcfg. cbn.
    rewrite Hc. cbn. rewrite lookup_insert_eq.
    split; [done|]. split; [done|].
    split; [by rewrite bool_decide_true by (by exists v)|].
    split; [by destruct (is_Ellipsis v)|].
    intros k' Hk'. rewrite lookup_insert_ne by done.
    split; [done|]. by destruct (is_Ellipsis _).
  - intros Hcfg. unfold set. by rewrite Hc, Hcfg.
Qed.

Lemma set_then_read_witness :
  let on := self (named_state 2) in
  let half := self half_attached_state in
  (get "profile" PyEllipsis (set "profile" (PyInt 3) on).2).1 = Ok (PyInt 3)
  /\ (get "profile" (PyInt 0) (set "profile" PyEllipsis on).2).1
     = Raise KeyError
  /\ set "profile" (PyInt 3) half = (Raise TypeError, half).
Proof.
  cbv zeta.
  destruct (set_then_read (self (named_state 2)) "profile" (PyInt 3)
              PyEllipsis eq_refl) as [Hint _].
  destruct (set_then_read (self (named_state 2)) "profile" PyEllipsis
              (PyInt 0) eq_refl) as [Hell _].
  assert (connected (self half_attached_state) = true) as Hc
    by (vm_compute; reflexivity).
  assert (config (self half_attached_state) = None) as Hn
    by (vm_compute; reflexivity).
  destruct (set_then_read (self half_attached_state) "profile" (PyInt 3)
              PyNone Hc) as [_ Hnone].
  split; [|split].
  - exact (proj1 (proj2 (proj2 (proj2
             (Hint {[ "name"%string := PyStr "cocoa" ]} eq_refl))))).
  - exact (proj1 (proj2 (proj2 (proj2
             (Hell {[ "name"%string := PyStr "cocoa" ]} eq_refl))))).
  - exact (Hnone Hn).
Defined.

(** X17. [setdefault] never replaces a value: on a key the record holds it
    returns the held value and leaves the object as it is; on a missing
    key it stores the default exactly as [set] would and returns it; and
    whatever a first [setdefault] returned, a second one on the same key
    returns again, its own default ignored. *)
Theorem setdefault_keeps_first_value
    (this : CocoaMemory) (c : Config) (key : string) (d d' : PyValue) :
  connected this = true -> config this = Some c ->
  (forall x, c !! key = Some x -> setdefault key d this = (Ok x, this))
  /\ (c !! key = None ->
      setdefault key d this = (Ok d, (set key d this).2))
  /\ (forall x, (setdefault key d this).1 = Ok x ->
      setdefault key d' (setdefault key d this).2
      = (Ok x, (setdefault key d this).2)).
Proof.
  intros Hc Hcfg. unfold setdefault, set. rewrite Hc, Hcfg. cbn.
  split; [by intros x ->|]. split; [by intros ->|].
  intros x. destruct (c !! key) as [y|] eqn:Hk; cbn.
  - intros [= ->]. by rewrite Hc, Hcfg, Hk.
  - intros [= ->]. by rewrite Hc, lookup_insert_eq.
Qed.

Lemma setdefault_keeps_first_value_witness :
  let on := self (named_state 2) in
  setdefault "name" (PyStr "other") on = (Ok (PyStr "cocoa"), on)
  /\ (setdefault "heaters" (PyInt 2) (setdefault "heaters" (PyInt 1) on).2).1
     = Ok (PyInt 1).
Proof.
  cbv zeta.
  destruct (setdefault_keeps_first_value (self (named_state 2))
              {[ "name"%string := PyStr "cocoa" ]} "name" (PyStr "other")
              PyNone eq_refl eq_refl) as (Hheld & _ & _).
  destruct (setdefault_keeps_first_value (self (named_state 2))
              {[ "name"%string := PyStr "cocoa" ]} "heaters" (PyInt 1)
              (PyInt 2) eq_refl eq_refl) as (_ & _ & Hagain).
  split.
  - apply Hheld. vm_compute. reflexivity.
  - rewrite (Hagain (PyInt 1)); [reflexivity | vm_compute; reflexivity].
Defined.

(** X18. On a connected controller that holds a record, [delete] removes
    the key and nothing else: afterwards [has] does not find it, [get]
    without a default raises [KeyError], other keys read as before, and
    deleting it again changes nothing.  Deleting a key right after setting
    it, when the record did not hold it before, gives back the object as
    it was.  On a connected controller that holds no record ([config] is
    [None]), [delete] and [has] raise [TypeError] and change nothing. *)
Theorem delete_removes_only_the_key
    (this : CocoaMemory) (key : string) (v d : PyValue) :
  connected this = true ->
  (forall c, config this = Some c ->
     let this' := (delete key this).2 in
     (delete key this).1 = Ok tt
     /\ config this' = Some (base.delete key c)
     /\ (has key this').1 = Ok false
     /\ (get key PyEllipsis this').1 = Raise KeyError
     /\ (forall k', k' <> key ->
         (has k' this').1 = (has k' this).1
         /\ (get k' d this').1 = (get k' d this).1)
     /\ delete key this' = (Ok tt, this')
     /\ (c !! key = None -> (delete key (set key v this).2).2 = this))
  /\ (config this = None ->
      delete key this = (Raise TypeError, this)
      /\ has key this = (Raise TypeError, this)).
Proof.
  intros Hc. split.
  2:{ intros Hcfg. unfold delete, has. by rewrite Hc, Hcfg. }
  intros c Hcfg. cbv zeta.
  assert ((delete key this).1 = Ok tt
          /\ (delete key this).2 = set_config (Some (base.delete key c)) this)
    as [Hr Hs].
  { unfold delete. rewrite Hc, Hcfg. cbn [negb].
    destruct (bool_decide (is_Some (c !! key))) eqn:Hb; [done|].
    split; [done|]. cbn [snd].
    apply bool_decide_eq_false in Hb.
    rewrite delete_id.
    - destruct this; cbn in *. by subst.
    - destruct (c !! key) as [x|] eqn:E; [|done]. destruct Hb. by exists x. }
  rewrite Hs. split; [done|]. split; [done|].
  unfold has, get, delete, set. cbn. rewrite Hc, Hcfg. cbn.
  rewrite lookup_delete_eq.
  split; [by rewrite bool_decide_false by (by intros [x Hx])|].
  split; [done|].
  split.
  { intros k' Hk'. rewrite lookup_delete_ne by done.
    split; [done|]. by destruct (is_Ellipsis _). }
  split; [by rewrite bool_decide_false by (by intros [x Hx])|].
  intros Hk. rewrite lookup_insert_eq.
  rewrite bool_decide_true by (by exists v). cbn.
  rewrite delete_insert_id by done. destruct this; cbn in *. by subst.
Qed.

Lemma delete_removes_only_the_key_witness :
  let on := self (named_state 2) in
  let half := self half_attached_state in
  (has "name" (delete "name" on).2).1 = Ok false
  /\ (delete "profile" (set "profile" (PyInt 3) on).2).2 = on
  /\ delete "name" half = (Raise TypeError, half).
Proof.
  cbv zeta.
  destruct (delete_removes_only_the_key (self (named_state 2)) "name"
              PyNone PyNone eq_refl) as [Hname _].
  destruct (delete_removes_only_the_key (self (named_state 2)) "profile"
              (PyInt 3) PyNone eq_refl) as [Hprofile _].
  assert (connected (self half_attached_state) = true) as Hc
    by (vm_compute; reflexivity).
  assert (config (self half_attached_state) = None) as Hn
    by (vm_compute; reflexivity).
  destruct (delete_removes_only_the_key (self half_attached_state) "name"
              PyNone PyNone Hc) as [_ Hnone].
  destruct (Hname {[ "name"%string := PyStr "cocoa" ]} eq_refl)
    as (_ & _ & Hhas & _).
  destruct (Hprofile {[ "name"%string := PyStr "cocoa" ]} eq_refl)
    as (_ & _ & _ & _ & _ & _ & Hback).
  split; [exact Hhas|]. split.
  - apply Hback. vm_compute. reflexivity.
  - exact (proj1 (Hnone Hn)).
Defined.

(** X19. Adding a key to a clean record, or deleting one of its keys,
    makes [has_changes] true, so that the next [_autosave] saves. *)
Theorem key_set_change_is_dirty
    (this : CocoaMemory) (c : Config) (key : string) (v : PyValue) :
  connected this = true -> config this = Some c ->
  has_changes this = false ->
  (c !! key = None -> has_changes (set key v this).2 = true)
  /\ (is_Some (c !! key) -> has_changes (delete key this).2 = true).
Proof.
  intros Hc Hcfg Hclean. unfold has_changes in *. rewrite Hcfg in Hclean.
  destruct (_last_config this) as [c'|] eqn:Hl; [|done].
  cbn in Hclean. apply negb_false_iff, config_eqb_size in Hclean.
  split.
  - intros Hk. unfold set. rewrite Hc, Hcfg. cbn. rewrite Hl.
    unfold config_eqb. rewrite map_size_insert_None by done.
    rewrite Hclean. by rewrite (proj2 (Nat.eqb_neq _ _)) by lia.
  - intros Hk. unfold delete. rewrite Hc, Hcfg. cbn [negb].
    rewrite bool_decide_true by done. cbn. rewrite Hl.
    unfold config_eqb. destruct Hk as [x Hx].
    pose proof (map_size_delete_Some key c ltac:(by exists x)) as Hsz.
    pose proof (map_size_ne_0_lookup_2 c key ltac:(by exists x)) as Hnz.
    rewrite (proj2 (Nat.eqb_neq (size (base.delete key c)) (size c')));
      [done | lia].
Qed.

Lemma key_set_change_is_dirty_witness :
  has_changes (self initialized_state) = false
  /\ has_changes (set "profile" (PyInt 3) (self initialized_state)).2 = true.
Proof.
  assert (has_changes (self initialized_state) = false) as Hclean
    by (vm_compute; reflexivity).
  split; [exact Hclean|].
  refine (proj1 (key_set_change_is_dirty (self initialized_state)
                   {[ "name"%string := PyStr "cocoa" ]} "profile" (PyInt 3)
                   _ _ Hclean) _); vm_compute; reflexivity.
Defined.

(** * Attachment detection *)

Section Toolhead.
Context {F : Type} `{!AdcValue F}.






Lemma run_callbacks_cons heater (t v : F) rs this :
  run_callbacks ((heater, t, v) :: rs) this
  = ((run_callbacks rs (receive_sensor_value heater v this).1).1,
     ((if below_open v then [TvAdcCallback t v]
       else [TvSetPwmOff t; TvVerifyReset])
        ++ (receive_sensor_value heater v this).2)
       ++ (run_callbacks rs (receive_sensor_value heater v this).1).2).
Proof.
  cbn [run_callbacks]. unfold new_callback.
  destruct (receive_sensor_value heater v this) as [this1 evs1].
  cbn [fst snd]. by destruct (run_callbacks rs this1) as [this2 evs2].
Qed.

Lemma receive_sensor_value_no_adc heater (value : F) this t v :
  TvAdcCallback t v ∉ (receive_sensor_value heater value this).2.
Proof.
  unfold receive_sensor_value. case_bool_decide; cbn [snd]; intros Hin.
  - repeat (apply elem_of_cons in Hin as [Hin|Hin]; [discriminate|]).
    by apply elem_of_nil in Hin.
  - by apply elem_of_nil in Hin.
Qed.

(** X21. An open-circuit reading never reaches the temperature sensor:
    every reading that a run of callbacks forwards to [adc_callback] is
    below [OPEN_ADC_VALUE], and every reading that is not below it turns
    the heater's PWM off in its own callback. *)
Theorem open_reading_never_forwarded
    (rs : list (string * F * F)) (this : CocoaToolheadControl F) :
  (forall t v, TvAdcCallback t v ∈ (run_callbacks rs this).2 ->
     below_open v = true)
  /\ (forall heater t v, (heater, t, v) ∈ rs -> below_open v = false ->
      TvSetPwmOff t ∈ (run_callbacks rs this).2).
Proof.
  revert this. induction rs as [|[[heater t] v] rs IH]; intros this.
  { split; [intros t v H | intros h t v H]; by apply elem_of_nil in H. }
  rewrite run_callbacks_cons. cbn [snd].
  destruct (IH (receive_sensor_value heater v this).1) as [IHa IHb].
  split.
  - intros t0 v0 Hin. apply elem_of_app in Hin as [Hin|Hin]; [|by eapply IHa].
    apply elem_of_app in Hin as [Hin|Hin].
    + destruct (below_open v) eqn:Hv.
      * apply list_elem_of_singleton in Hin. by injection Hin as -> ->.
      * repeat (apply elem_of_cons in Hin as [Hin|Hin]; [discriminate|]).
        by apply elem_of_nil in Hin.
    + by apply receive_sensor_value_no_adc in Hin.
  - intros h0 t0 v0 Hin Hv0. apply elem_of_cons in Hin as [E|Hin].
    + injection E as -> -> ->. rewrite Hv0.
      apply elem_of_app. left. apply elem_of_app. left.
      apply list_elem_of_here.
    + apply elem_of_app. right. by eapply IHb.
Qed.

End Toolhead.

Lemma open_reading_never_forwarded_witness :
  TvSetPwmOff true
  ∈ (run_callbacks [("extruder"%string, false, true);
                    ("body"%string, true, false)]
       (mkToolhead None ∅)).2.
Proof.
  apply (proj2 (open_reading_never_forwarded
                  [("extruder"%string, false, true);
                   ("body"%string, true, false)]
                  (mkToolhead None ∅)) "body"%string true false).
  - apply list_elem_of_further, list_elem_of_here.
  - reflexivity.
Defined.

(** * Saved nozzle offsets *)

Lemma prefix_append (p u : string) : String.prefix p (p +:+ u) = true.
Proof.
  induction p as [|a p IH]; [by destruct u|].
  change (String.prefix (String a p) (String a (p +:+ u)) = true). cbn.
  destruct (ascii_dec a a) as [_|n]; [exact IH | by destruct n].
Qed.

Lemma str_drop_append (p u : string) : str_drop (String.length p) (p +:+ u) = u.
Proof.
  induction p as [|a p IH]; [by destruct u|].
  change (str_drop (S (String.length p)) (String a (p +:+ u)) = u).
  by cbn.
Qed.

Lemma removeprefix_append (p u : string) : removeprefix p (p +:+ u) = u.
Proof. unfold removeprefix. by rewrite prefix_append, str_drop_append. Qed.

Lemma prefix_removeprefix (p k : string) :
  String.prefix p k = true -> k = p +:+ removeprefix p k.
Proof.
  unfold removeprefix. intros H. rewrite H. revert k H.
  induction p as [|a p IH]; intros k H; [by destruct k|].
  destruct k as [|b k]; [done|]. cbn in *.
  destruct (ascii_dec a b) as [->|]; [|done].
  change (String b k = String b (p +:+ str_drop (String.length p) k)).
  f_equal. by apply IH.
Qed.

Lemma saved_fold_lookup {V : Type} (p : string) (l : list (string * V))
    (acc : gmap string V) (u : string) :
  NoDup l.*1 ->
  foldl (fun acc kv =>
           if String.prefix p kv.1
           then <[removeprefix p kv.1 := kv.2]> acc else acc) acc l !! u
  = match (list_to_map l : gmap string V) !! (p +:+ u) with
    | Some v => Some v
    | None => acc !! u
    end.
Proof.
  revert acc. induction l as [|[k v] l IH]; intros acc Hnd; [done|].
  cbn [fmap list_fmap fst] in Hnd. apply NoDup_cons in Hnd as [Hk Hnd].
  cbn [foldl fst snd]. rewrite IH by done. rewrite list_to_map_cons.
  destruct (decide (k = p +:+ u)) as [->|Hne].
  - rewrite lookup_insert_eq.
    rewrite (not_elem_of_list_to_map_1 _ _ Hk).
    by rewrite prefix_append, removeprefix_append, lookup_insert_eq.
  - rewrite lookup_insert_ne by done.
    destruct (list_to_map l !! (p +:+ u)); [done|].
    destruct (String.prefix p k) eqn:Hp; [|done].
    rewrite lookup_insert_ne; [done|].
    intros E. apply Hne. rewrite <- E. by apply prefix_removeprefix.
Qed.

(** X22. The ["saved"] entry of [CocoaNozzleOffsets.get_status] lists,
    under each name [u], exactly the variable stored as [prefix + u]: a
    stored offset is never dropped, renamed to another tool, or shadowed by
    another variable, and a variable without the prefix is not listed. *)
Theorem saved_offsets_lookup {V : Type}
    (mux_name : option string) (allVariables : gmap string V) (u : string) :
  get_status_saved (offsets_prefix mux_name) allVariables !! u
  = allVariables !! (offsets_prefix mux_name +:+ u).
Proof.
  unfold get_status_saved.
  rewrite saved_fold_lookup by apply NoDup_fst_map_to_list.
  rewrite list_to_map_to_list, lookup_empty.
  by destruct (allVariables !! _).
Qed.
